(** * Shared device buffers (xla/python/shared_device_buffer.cc)

    A shallow embedding of [BufferDefinitionEvent], [SharedDeviceBuffer] and
    [SharedDeviceBuffer::ScopedUsage], and the properties their
    specification states about them.

    Every method of the source runs with the object's mutex held from its
    first statement to its return, so a method is modelled as one atomic
    transition of the program state.  A method call has three possible
    outcomes: it returns ([Done]), a [CHECK] fails and the process aborts
    ([Crash]), or the calling thread parks in [mu_.Await] because the awaited
    condition does not hold in the current state ([Blocked]; the call has not
    returned and has changed nothing). *)

From Stdlib Require Import ZArith List Bool Lia Permutation.
From stdpp Require Import base gmap list.

Local Open Scope Z_scope.

(** ** Outcomes and the method monad *)

Inductive outcome (A : Type) : Type :=
| Done (a : A)
| Blocked
| Crash.

Arguments Done {A} a.
Arguments Blocked {A}.
Arguments Crash {A}.

(** ** Identities of the collaborators *)

(** [se::Stream*], [se::Event*], [se::DeviceMemoryAllocator*],
    [se::Platform*] and the target of a [std::function<void()>] are opaque to
    this file: only their identity is used. *)
Definition Stream := nat.
Definition SeEvent := nat.
Definition Allocator := nat.
Definition Platform := nat.
Definition Callback := nat.

(** Addresses of the shared objects ([std::shared_ptr] targets). *)
Definition EventPtr := nat.
Definition BufferPtr := nat.

Bind Scope nat_scope with Stream SeEvent Allocator Platform Callback
  EventPtr BufferPtr.

(** [se::DeviceMemoryBase]: an address and a size; the default-constructed
    value is the null region. *)
Record DeviceMemoryBase := {
  opaque : Z;
  size : Z
}.

Definition DeviceMemoryBase_null : DeviceMemoryBase :=
  {| opaque := 0; size := 0 |}.

(** [Status] of the allocator. *)
Inductive Status :=
| OK
| Error (code : nat).

Definition ok (s : Status) : bool :=
  match s with OK => true | Error _ => false end.

(** Modelled from the spec: [EventPool::Handle], declared in event_pool.h,
    a file outside shared_device_buffer.cc.  Spec 3: "an opaque,
    at-most-once-settable handle to an underlying asynchronous completion
    marker (may be absent/unset initially), plus a monotonically increasing
    sequence number assigned when set".  [h_event] is the result of
    [event()], a null pointer for the default-constructed handle. *)
Record Handle := {
  h_event : option SeEvent;
  h_sequence_number : Z
}.

Definition Handle_default : Handle :=
  {| h_event := None; h_sequence_number := 0 |}.

(** ** Program state *)

Record BufferDefinitionEvent := {
  event_ : Handle;
  streams_defined_on_ : list Stream
}.

Record StreamAndEvent := {
  stream : Stream;
  event : EventPtr;
  reference_held : bool
}.

(** The counters are declared in shared_device_buffer.h, outside
    shared_device_buffer.cc; the spec calls them non-negative integer counts
    and they are kept as unbounded integers. *)
Record SharedDeviceBuffer := {
  allocator_ : option Allocator;
  device_ordinal_ : Z;
  device_memory_ : list DeviceMemoryBase;
  definition_events_ : list EventPtr;
  in_use_ : bool;
  usage_holds_ : Z;
  external_references_ : Z;
  usage_events_ : list StreamAndEvent;
  on_delete_callback_ : option Callback
}.

(** What the program does to its collaborators, oldest first. *)
Inductive Effect :=
| ThenWaitFor (on : Stream) (marker : option SeEvent)
| Deallocate (a : Allocator) (device_ordinal : Z) (mem : DeviceMemoryBase)
| LogError (st : Status)
| OnDelete (cb : Callback).

Record World := {
  events : gmap nat BufferDefinitionEvent;
  buffers_store : gmap nat SharedDeviceBuffer;
  effects : list Effect
}.

Definition M (A : Type) : Type := World -> outcome (A * World).

Definition ret {A} (a : A) : M A := fun w => Done (a, w).

Definition bind {A B} (m : M A) (k : A -> M B) : M B :=
  fun w =>
    match m w with
    | Done (a, w') => k a w'
    | Blocked => Blocked
    | Crash => Crash
    end.

Declare Scope method_scope.
Delimit Scope method_scope with method.
Notation "x <- m ;; k" := (bind m (fun x => k))
  (at level 20, m at level 99, k at level 200) : method_scope.
Notation "m ;;; k" := (bind m (fun _ => k))
  (at level 100, k at level 200, right associativity) : method_scope.
Local Open Scope method_scope.

(** [CHECK(c)]: abort unless [c]. *)
Definition CHECK (c : bool) : M unit :=
  fun w => if c then Done (tt, w) else Crash.

(** [mu_.Await(Condition(c))]: park until [c]. *)
Definition Await (c : bool) : M unit :=
  fun w => if c then Done (tt, w) else Blocked.

Definition emit (e : Effect) : M unit :=
  fun w => Done (tt, {| events := events w;
                        buffers_store := buffers_store w;
                        effects := effects w ++ [e] |}).

(** Dereferencing a shared pointer.  A [shared_ptr] keeps its target alive,
    so an address without an object has no counterpart in the program; it is
    mapped to [Crash]. *)
Definition get_event (p : EventPtr) : M BufferDefinitionEvent :=
  fun w => match events w !! p with
           | Some e => Done (e, w)
           | None => Crash
           end.

Definition update_event (p : EventPtr) (e : BufferDefinitionEvent)
    (w : World) : World :=
  {| events := <[p := e]> (events w);
     buffers_store := buffers_store w;
     effects := effects w |}.

Definition put_event (p : EventPtr) (e : BufferDefinitionEvent) : M unit :=
  fun w => Done (tt, update_event p e w).

Definition get_buffer (p : BufferPtr) : M SharedDeviceBuffer :=
  fun w => match buffers_store w !! p with
           | Some b => Done (b, w)
           | None => Crash
           end.

Definition update_buffer (p : BufferPtr) (b : SharedDeviceBuffer)
    (w : World) : World :=
  {| events := events w;
     buffers_store := <[p := b]> (buffers_store w);
     effects := effects w |}.

Definition put_buffer (p : BufferPtr) (b : SharedDeviceBuffer) : M unit :=
  fun w => Done (tt, update_buffer p b w).

(** ** BufferDefinitionEvent *)

Definition BufferDefinitionEvent_new : BufferDefinitionEvent :=
  {| event_ := Handle_default; streams_defined_on_ := [] |}.

Definition EventHasBeenRecorded (self : BufferDefinitionEvent) : bool :=
  match h_event (event_ self) with Some _ => true | None => false end.

Definition is_empty {A} (l : list A) : bool :=
  match l with [] => true | _ => false end.

(** [std::find(l.begin(), l.end(), s) != l.end()] *)
Definition found (s : Stream) (l : list Stream) : bool :=
  existsb (Nat.eqb s) l.

Definition SetDefinitionEvent (self : EventPtr) (ev : Handle) (s : Stream)
  : M unit :=
  e <- get_event self ;;
  CHECK (negb (EventHasBeenRecorded e)) ;;;
  CHECK (is_empty (streams_defined_on_ e)) ;;;
  put_event self {| event_ := ev;
                    streams_defined_on_ := streams_defined_on_ e ++ [s] |}.

Definition sequence_number (self : EventPtr) : M Z :=
  e <- get_event self ;;
  CHECK (EventHasBeenRecorded e) ;;;
  ret (h_sequence_number (event_ e)).

Definition WaitForEventOnStream (self : EventPtr) (s : Stream) : M unit :=
  e <- get_event self ;;
  Await (EventHasBeenRecorded e) ;;;
  if found s (streams_defined_on_ e) then ret tt
  else
    emit (ThenWaitFor s (h_event (event_ e))) ;;;
    put_event self {| event_ := event_ e;
                      streams_defined_on_ := streams_defined_on_ e ++ [s] |}.

Definition DefinedOn (self : EventPtr) (s : Stream) : M bool :=
  e <- get_event self ;;
  Await (EventHasBeenRecorded e) ;;;
  ret (found s (streams_defined_on_ e)).

(** Modelled from the spec: [operator<] of [BufferDefinitionEvent], declared
    in shared_device_buffer.h, outside shared_device_buffer.cc.
    Spec 4.1: "event A happens before event B if A's sequence number is less
    than B's".  It reads both numbers through [sequence_number]. *)
Definition event_lt (a b : EventPtr) : M bool :=
  sa <- sequence_number a ;;
  sb <- sequence_number b ;;
  ret (sa <? sb).

(** ** SharedDeviceBuffer: construction and the hold protocol *)

Definition SharedDeviceBuffer_new (allocator : option Allocator)
    (device_ordinal : Z) (device_memory : list DeviceMemoryBase)
    (definition_events : list EventPtr)
    (on_delete_callback : option Callback) : SharedDeviceBuffer :=
  {| allocator_ := allocator;
     device_ordinal_ := device_ordinal;
     device_memory_ := device_memory;
     definition_events_ := definition_events;
     in_use_ := true;
     usage_holds_ := 0;
     external_references_ := 0;
     usage_events_ := [];
     on_delete_callback_ := on_delete_callback |}.

(** [std::make_shared<SharedDeviceBuffer>(...)]: the object is placed at an
    address no live buffer has. *)
Definition make_shared (b : SharedDeviceBuffer) : M BufferPtr :=
  fun w =>
    let p := fresh (dom (buffers_store w)) in
    Done (p, update_buffer p b w).

Definition set_usage_holds (n : Z) (b : SharedDeviceBuffer)
  : SharedDeviceBuffer :=
  {| allocator_ := allocator_ b;
     device_ordinal_ := device_ordinal_ b;
     device_memory_ := device_memory_ b;
     definition_events_ := definition_events_ b;
     in_use_ := in_use_ b;
     usage_holds_ := n;
     external_references_ := external_references_ b;
     usage_events_ := usage_events_ b;
     on_delete_callback_ := on_delete_callback_ b |}.

Definition set_external_references (n : Z) (b : SharedDeviceBuffer)
  : SharedDeviceBuffer :=
  {| allocator_ := allocator_ b;
     device_ordinal_ := device_ordinal_ b;
     device_memory_ := device_memory_ b;
     definition_events_ := definition_events_ b;
     in_use_ := in_use_ b;
     usage_holds_ := usage_holds_ b;
     external_references_ := n;
     usage_events_ := usage_events_ b;
     on_delete_callback_ := on_delete_callback_ b |}.

Definition set_usage_events (l : list StreamAndEvent) (b : SharedDeviceBuffer)
  : SharedDeviceBuffer :=
  {| allocator_ := allocator_ b;
     device_ordinal_ := device_ordinal_ b;
     device_memory_ := device_memory_ b;
     definition_events_ := definition_events_ b;
     in_use_ := in_use_ b;
     usage_holds_ := usage_holds_ b;
     external_references_ := external_references_ b;
     usage_events_ := l;
     on_delete_callback_ := on_delete_callback_ b |}.

Definition set_in_use (u : bool) (b : SharedDeviceBuffer)
  : SharedDeviceBuffer :=
  {| allocator_ := allocator_ b;
     device_ordinal_ := device_ordinal_ b;
     device_memory_ := device_memory_ b;
     definition_events_ := definition_events_ b;
     in_use_ := u;
     usage_holds_ := usage_holds_ b;
     external_references_ := external_references_ b;
     usage_events_ := usage_events_ b;
     on_delete_callback_ := on_delete_callback_ b |}.

Definition AddUsageHold (self : BufferPtr) : M unit :=
  b <- get_buffer self ;;
  CHECK (in_use_ b) ;;;
  put_buffer self (set_usage_holds (usage_holds_ b + 1) b).

Definition DropUsageHold (self : BufferPtr) : M unit :=
  b <- get_buffer self ;;
  CHECK (in_use_ b) ;;;
  CHECK (usage_holds_ b >? 0) ;;;
  put_buffer self (set_usage_holds (usage_holds_ b - 1) b).

Definition AddExternalReference (self : BufferPtr) : M unit :=
  b <- get_buffer self ;;
  CHECK (in_use_ b) ;;;
  put_buffer self (set_external_references (external_references_ b + 1) b).

Definition DropExternalReference (self : BufferPtr) : M unit :=
  b <- get_buffer self ;;
  CHECK (external_references_ b >? 0) ;;;
  put_buffer self (set_external_references (external_references_ b - 1) b).

(** The loop of [ConvertUsageHold] over [usage_events_] and the [push_back]
    that follows it: the first entry of [usage_stream] is compared with the
    new event and overwritten when it is earlier, and the method returns;
    with no such entry the triple is appended. *)
Fixpoint record_usage_event (usage_stream : Stream) (ev : EventPtr)
    (held : bool) (l : list StreamAndEvent) : M (list StreamAndEvent) :=
  match l with
  | [] => ret [{| stream := usage_stream; event := ev;
                  reference_held := held |}]
  | existing :: rest =>
      if Nat.eqb (stream existing) usage_stream then
        earlier <- event_lt (event existing) ev ;;
        if (earlier : bool) then
          ret ({| stream := stream existing; event := ev;
                  reference_held := held |} :: rest)
        else ret (existing :: rest)
      else
        rest' <- record_usage_event usage_stream ev held rest ;;
        ret (existing :: rest')
  end.

Definition ConvertUsageHold (self : BufferPtr) (usage_stream : Stream)
    (ev : EventPtr) (held : bool) : M unit :=
  b <- get_buffer self ;;
  CHECK (in_use_ b) ;;;
  CHECK (usage_holds_ b >? 0) ;;;
  l <- record_usage_event usage_stream ev held (usage_events_ b) ;;
  put_buffer self (set_usage_events l (set_usage_holds (usage_holds_ b - 1) b)).

(** Modelled from the spec: what [std::move] leaves in a
    [StreamAndEventContainer] it has moved from.  The container type is
    declared in shared_device_buffer.h, outside shared_device_buffer.cc, and
    the source only writes [return std::move(usage_events_)]; spec 4.2:
    "returns the finalized usage_events collection, leaving the buffer's own
    copy empty". *)
Definition moved_from (l : list StreamAndEvent) : list StreamAndEvent := [].

(** [return std::move(usage_events_)] hands the entries to the caller and
    leaves the member in its moved-from state.

    The two [CHECK(in_use_)] around the [Await] test the same flag, so a
    parked call that is resumed behaves like a fresh call from the state in
    which it is resumed. *)
Definition LockUseAndTransferUsageEvents (self : BufferPtr)
  : M (list StreamAndEvent) :=
  b <- get_buffer self ;;
  CHECK (in_use_ b) ;;;
  Await (usage_holds_ b =? 0) ;;;
  CHECK (in_use_ b) ;;;
  put_buffer self
    (set_usage_events (moved_from (usage_events_ b)) (set_in_use false b)) ;;;
  ret (usage_events_ b).

(** ** SharedDeviceBuffer: destruction *)

Section Destruction.

(** The allocator capability: the status [Deallocate] answers, which may
    depend on everything done so far. *)
Variable Deallocate_status :
  list Effect -> Allocator -> Z -> DeviceMemoryBase -> Status.

Definition call_Deallocate (a : Allocator) (device_ordinal : Z)
    (mem : DeviceMemoryBase) : M Status :=
  fun w =>
    Done (Deallocate_status (effects w) a device_ordinal mem,
          {| events := events w;
             buffers_store := buffers_store w;
             effects := effects w ++ [Deallocate a device_ordinal mem] |}).

Fixpoint deallocate_each (a : Allocator) (device_ordinal : Z)
    (mems : list DeviceMemoryBase) : M unit :=
  match mems with
  | [] => ret tt
  | buffer :: rest =>
      status <- call_Deallocate a device_ordinal buffer ;;
      (if ok status then ret tt else emit (LogError status)) ;;;
      deallocate_each a device_ordinal rest
  end.

Definition release_buffer (p : BufferPtr) : M unit :=
  fun w => Done (tt, {| events := events w;
                        buffers_store := delete p (buffers_store w);
                        effects := effects w |}).

(** [~SharedDeviceBuffer] *)
Definition SharedDeviceBuffer_destructor (self : BufferPtr) : M unit :=
  b <- get_buffer self ;;
  CHECK (external_references_ b =? 0) ;;;
  match allocator_ b with
  | Some a => deallocate_each a (device_ordinal_ b) (device_memory_ b)
  | None => ret tt
  end ;;;
  match on_delete_callback_ b with
  | Some cb => emit (OnDelete cb)
  | None => ret tt
  end ;;;
  release_buffer self.

End Destruction.

(** ** ScopedUsage *)

Module ScopedUsage.

Record t := { parent_ : option BufferPtr }.

Definition empty : t := {| parent_ := None |}.

Definition is_null (p : option BufferPtr) : bool :=
  match p with None => true | Some _ => false end.

Definition destructor (self : t) : M unit :=
  match parent_ self with
  | Some p => DropUsageHold p
  | None => ret tt
  end.

Definition Acquire (self : t) (parent : option BufferPtr) : M t :=
  CHECK (is_null (parent_ self)) ;;;
  match parent with
  | Some p => AddUsageHold p ;;; ret {| parent_ := Some p |}
  | None => ret self
  end.

(** [return std::move(parent_)]: a moved-from [shared_ptr] is null. *)
Definition Release (self : t) : M (option BufferPtr * t) :=
  ret (parent_ self, {| parent_ := None |}).

Definition Transfer (self : t) (parent : option BufferPtr) : M t :=
  CHECK (is_null (parent_ self)) ;;;
  ret {| parent_ := parent |}.

Definition Convert (self : t) (usage_stream : Stream) (ev : EventPtr)
    (held : bool) : M t :=
  CHECK (negb (is_null (parent_ self))) ;;;
  match parent_ self with
  | Some p => ConvertUsageHold p usage_stream ev held
  | None => ret tt
  end ;;;
  ret {| parent_ := None |}.

End ScopedUsage.

(** ** Shapes and shaped buffers *)

(** Modelled from the spec: [Shape], [ShapeIndex],
    [ShapeUtil::ForEachSubshape], [ShapeTree] and [ShapedBuffer] /
    [ScopedShapedBuffer], declared in files outside
    shared_device_buffer.cc.  Spec 6: "ordered traversal of sub-buffer slots matching a
    shape's sub-shape order, get/set of each slot's raw memory region"; spec
    4.2: the walk is "in shape order" and "in the same deterministic order
    used at construction".  A shape is an array or a tuple of shapes; its
    subshapes are visited parent first, then the tuple elements from left to
    right; a shape tree has one slot per subshape, in that order. *)
Definition ShapeIndex := list nat.

(** Modelled from the spec: [Shape], an array or a tuple of shapes. *)
#[warnings="-register-all"]
Inductive Shape :=
| ArrayShape (element_type : nat) (dimensions : list Z)
| TupleShape (tuple_shapes : list Shape).

(** Modelled from the spec: [ShapeUtil::ForEachSubshape], the subshapes of
    [s] with their indices in visiting order. *)
Fixpoint ForEachSubshape (s : Shape) (index : ShapeIndex)
  : list (Shape * ShapeIndex) :=
  (s, index) ::
  match s with
  | ArrayShape _ _ => []
  | TupleShape ts =>
      (fix elements (ts : list Shape) (i : nat) : list (Shape * ShapeIndex) :=
         match ts with
         | [] => []
         | t :: ts' => ForEachSubshape t (index ++ [i]) ++ elements ts' (S i)
         end) ts 0%nat
  end.

(** Modelled from the spec: [ShapeTree<se::DeviceMemoryBase>], its slots in
    iteration order; [ShapeTree_new] is the tree of a shape with every slot
    default-constructed. *)
Abbreviation ShapeTree := (list (ShapeIndex * DeviceMemoryBase)).

Definition ShapeTree_new (s : Shape) : ShapeTree :=
  map (fun n => (snd n, DeviceMemoryBase_null)) (ForEachSubshape s []).

(** Modelled from the spec: [ShapedBuffer] and its constructor, whose tree
    is the tree of the device shape. *)
Record ShapedBuffer := {
  on_host_shape : Shape;
  on_device_shape : Shape;
  platform : Platform;
  device_ordinal : Z;
  buffers : ShapeTree
}.

Definition ShapedBuffer_new (host device : Shape) (pl : Platform)
    (ordinal : Z) : ShapedBuffer :=
  {| on_host_shape := host;
     on_device_shape := device;
     platform := pl;
     device_ordinal := ordinal;
     buffers := ShapeTree_new device |}.

(** Modelled from the spec: [ScopedShapedBuffer], a shaped buffer with the
    allocator that owns its regions. *)
Record ScopedShapedBuffer := {
  shaped : ShapedBuffer;
  memory_allocator : option Allocator
}.

Definition set_buffers (t : ShapeTree) (sb : ShapedBuffer) : ShapedBuffer :=
  {| on_host_shape := on_host_shape sb;
     on_device_shape := on_device_shape sb;
     platform := platform sb;
     device_ordinal := device_ordinal sb;
     buffers := t |}.

(** The memory regions of a shape tree, in slot order. *)
Definition regions (t : ShapeTree) : list DeviceMemoryBase := map snd t.

(** The body of the [ForEachSubshape] callback in [FromScopedShapedBuffer],
    run once per subshape: [iterator] is the position in the source's tree,
    [out] the vector being filled. *)
Fixpoint extract_regions (subshapes : list (Shape * ShapeIndex))
    (iterator : nat) (tree : ShapeTree) (out : list DeviceMemoryBase)
  : M (nat * ShapeTree * list DeviceMemoryBase) :=
  match subshapes with
  | [] => ret (iterator, tree, out)
  | _ :: rest =>
      match tree !! iterator with
      | None => CHECK false ;;; ret (iterator, tree, out)
      | Some (index, mem) =>
          extract_regions rest (S iterator)
            (<[iterator := (index, DeviceMemoryBase_null)]> tree)
            (out ++ [mem])
      end
  end.

Definition FromScopedShapedBuffer (shaped_buffer : ScopedShapedBuffer)
    (definition_events : list EventPtr)
  : M (BufferPtr * ScopedShapedBuffer) :=
  let src := shaped shaped_buffer in
  r <- extract_regions (ForEachSubshape (on_device_shape src) [])
         0%nat (buffers src) [] ;;
  let '(iterator, tree, out) := r in
  CHECK (Nat.eqb iterator (length tree)) ;;;
  p <- make_shared (SharedDeviceBuffer_new (memory_allocator shaped_buffer)
                      (device_ordinal src) out definition_events None) ;;
  ret (p, {| shaped := set_buffers tree src;
             memory_allocator := memory_allocator shaped_buffer |}).

(** The loop of [AsShapedBuffer] over [device_memory_]. *)
Fixpoint populate_regions (device_memory : list DeviceMemoryBase)
    (iterator : nat) (tree : ShapeTree) : M (nat * ShapeTree) :=
  match device_memory with
  | [] => ret (iterator, tree)
  | buf :: rest =>
      match tree !! iterator with
      | None => CHECK false ;;; ret (iterator, tree)
      | Some (index, _) =>
          populate_regions rest (S iterator) (<[iterator := (index, buf)]> tree)
      end
  end.

Definition AsShapedBuffer (self : BufferPtr) (host device : Shape)
    (pl : Platform) : M ShapedBuffer :=
  b <- get_buffer self ;;
  let shaped_buffer := ShapedBuffer_new host device pl (device_ordinal_ b) in
  r <- populate_regions (device_memory_ b) 0%nat (buffers shaped_buffer) ;;
  let '(iterator, tree) := r in
  CHECK (Nat.eqb iterator (length tree)) ;;;
  ret (set_buffers tree shaped_buffer).

(** ** Call sequences on one buffer *)

(** The calls threads make on a buffer, and the events they record in the
    meantime.  Each call is atomic, so a concurrent execution is one of the
    sequences of its calls. *)
Inductive Call :=
| CallAddUsageHold
| CallDropUsageHold
| CallConvertUsageHold (usage_stream : Stream) (ev : EventPtr) (held : bool)
| CallAddExternalReference
| CallDropExternalReference
| CallLockUseAndTransferUsageEvents
| CallSetDefinitionEvent (ev : EventPtr) (h : Handle) (s : Stream)
| CallWaitForEventOnStream (ev : EventPtr) (s : Stream).

Definition call (self : BufferPtr) (c : Call) : M unit :=
  match c with
  | CallAddUsageHold => AddUsageHold self
  | CallDropUsageHold => DropUsageHold self
  | CallConvertUsageHold s e h => ConvertUsageHold self s e h
  | CallAddExternalReference => AddExternalReference self
  | CallDropExternalReference => DropExternalReference self
  | CallLockUseAndTransferUsageEvents =>
      LockUseAndTransferUsageEvents self ;;; ret tt
  | CallSetDefinitionEvent e h s => SetDefinitionEvent e h s
  | CallWaitForEventOnStream e s => WaitForEventOnStream e s
  end.

Fixpoint calls (self : BufferPtr) (cs : list Call) : M unit :=
  match cs with
  | [] => ret tt
  | c :: rest => call self c ;;; calls self rest
  end.

(** The usage events of the buffer at [p], if there is one. *)
Definition usage_events_at (p : BufferPtr) (w : World) : list StreamAndEvent :=
  match buffers_store w !! p with
  | Some b => usage_events_ b
  | None => []
  end.

(** How many wait instructions the trace holds for stream [s]. *)
Definition is_wait_on (s : Stream) (e : Effect) : bool :=
  match e with
  | ThenWaitFor s' _ => Nat.eqb s' s
  | _ => false
  end.

Definition waits_issued (s : Stream) (l : list Effect) : nat :=
  length (filter (fun e => is_wait_on s e = true) l).

(** The entry [usage_events_] holds for a stream, and the sequence number of
    a recorded event. *)
Definition entry_for (s : Stream) (l : list StreamAndEvent)
  : option StreamAndEvent :=
  List.find (fun x => Nat.eqb (stream x) s) l.

Definition recorded_sequence_number (w : World) (p : EventPtr) : option Z :=
  match events w !! p with
  | Some e =>
      if EventHasBeenRecorded e then Some (h_sequence_number (event_ e))
      else None
  | None => None
  end.

(** [l] with its first entry for [s] overwritten as [ConvertUsageHold] does. *)
Fixpoint supersede (s : Stream) (ev : EventPtr) (held : bool)
    (l : list StreamAndEvent) : list StreamAndEvent :=
  match l with
  | [] => []
  | x :: rest =>
      if Nat.eqb (stream x) s
      then {| stream := stream x; event := ev; reference_held := held |} :: rest
      else x :: supersede s ev held rest
  end.

(** The net change of [usage_holds_] a call makes when it returns. *)
Definition net_holds (c : Call) : Z :=
  match c with
  | CallAddUsageHold => 1
  | CallDropUsageHold => -1
  | CallConvertUsageHold _ _ _ => -1
  | _ => 0
  end.

Definition total_net_holds (cs : list Call) : Z :=
  foldr (fun c n => net_holds c + n) 0 cs.

(** The streams a call converts a hold on. *)
Definition converted_stream (c : Call) : list Stream :=
  match c with
  | CallConvertUsageHold s _ _ => [s]
  | _ => []
  end.

Definition is_lock_call (c : Call) : bool :=
  match c with
  | CallLockUseAndTransferUsageEvents => true
  | _ => false
  end.

(** What one returning call does to the buffer it is made on. *)
Record call_effect (c : Call) (b b' : SharedDeviceBuffer) : Prop := {
  ce_holds : usage_holds_ b' = usage_holds_ b + net_holds c;
  ce_holds_nonneg : 0 <= usage_holds_ b -> 0 <= usage_holds_ b';
  ce_in_use : is_lock_call c = false -> in_use_ b' = in_use_ b;
  ce_locked : in_use_ b = false -> in_use_ b' = false;
  ce_NoDup :
    NoDup (map stream (usage_events_ b)) ->
    NoDup (map stream (usage_events_ b'));
  ce_streams :
    is_lock_call c = false ->
    forall s,
      s ∈ map stream (usage_events_ b') <->
      s ∈ map stream (usage_events_ b) \/ s ∈ converted_stream c
}.

(** The invariant of a shaped buffer: its tree has one slot per subshape of
    its device shape, in the order of [ForEachSubshape]. *)
Definition well_formed (sb : ShapedBuffer) : Prop :=
  map fst (buffers sb) = map snd (ForEachSubshape (on_device_shape sb) []).

(** [n] exports of one buffer in a row, results in call order. *)
Fixpoint AsShapedBuffer_times (n : nat) (self : BufferPtr)
    (host device : Shape) (pl : Platform) : M (list ShapedBuffer) :=
  match n with
  | O => ret []
  | S n' =>
      out <- AsShapedBuffer self host device pl ;;
      outs <- AsShapedBuffer_times n' self host device pl ;;
      ret (out :: outs)
  end.

(** The regions a trace deallocates, in order. *)
Definition deallocated (l : list Effect)
  : list (Allocator * Z * DeviceMemoryBase) :=
  flat_map (fun e => match e with
                     | Deallocate a o m => [(a, o, m)]
                     | _ => []
                     end) l.

(** The delete callbacks a trace invokes, in order. *)
Definition callbacks_invoked (l : list Effect) : list Callback :=
  flat_map (fun e => match e with
                     | OnDelete cb => [cb]
                     | _ => []
                     end) l.

(** An allocator that fails on the region at address 4096 and nowhere
    else. *)
Definition failing_at_4096 (past : list Effect) (a : Allocator) (o : Z)
    (m : DeviceMemoryBase) : Status :=
  if opaque m =? 4096 then Error 9 else OK.

(** ** Sample states *)

Definition no_objects : World :=
  {| events := ∅; buffers_store := ∅; effects := [] |}.

(** One event at address 0, record not set. *)
Definition world_unset_event : World :=
  {| events := {[ 0%nat := BufferDefinitionEvent_new ]};
     buffers_store := ∅;
     effects := [] |}.

Definition handle (marker : SeEvent) (seq : Z) : Handle :=
  {| h_event := Some marker; h_sequence_number := seq |}.

(** One event at address 0, recorded on stream 7 with sequence number 5. *)
Definition world_set_event : World :=
  {| events := {[ 0%nat := {| event_ := handle 40 5;
                              streams_defined_on_ := [7%nat] |} ]};
     buffers_store := ∅;
     effects := [] |}.

Definition recorded_event (marker : SeEvent) (seq : Z) (on : Stream)
  : BufferDefinitionEvent :=
  {| event_ := handle marker seq; streams_defined_on_ := [on] |}.

Definition region (address bytes : Z) : DeviceMemoryBase :=
  {| opaque := address; size := bytes |}.

(** A buffer of two regions owned through allocator 1, with a delete
    callback, holding [holds] usage holds and the usage events [l]. *)
Definition sample_buffer (holds : Z) (l : list StreamAndEvent)
  : SharedDeviceBuffer :=
  set_usage_events l
    (set_usage_holds holds
       (SharedDeviceBuffer_new (Some 1%nat) 0
          [region 4096 64; region 8192 32] [] (Some 3%nat))).

(** Buffer [b] at address 0; event 1 recorded with sequence number 5, event
    2 recorded with sequence number 3, event 3 not recorded. *)
Definition world_with_buffer (b : SharedDeviceBuffer) : World :=
  {| events := {[ 1%nat := recorded_event 41 5 7;
                  2%nat := recorded_event 42 3 7;
                  3%nat := BufferDefinitionEvent_new ]};
     buffers_store := {[ 0%nat := b ]};
     effects := [] |}.

(** A pair of arrays, and a shaped buffer of that shape holding three
    regions: one for the tuple, one for each array. *)
Definition pair_shape : Shape :=
  TupleShape [ArrayShape 1 [4]; ArrayShape 1 [2; 2]].

Definition sample_source : ScopedShapedBuffer :=
  {| shaped :=
       {| on_host_shape := pair_shape;
          on_device_shape := pair_shape;
          platform := 2%nat;
          device_ordinal := 0;
          buffers := [([], region 256 16);
                      ([0%nat], region 4096 64);
                      ([1%nat], region 8192 32)] |};
     memory_allocator := Some 1%nat |}.

(** A tuple of one array: two subshapes. *)
Definition boxed_shape : Shape := TupleShape [ArrayShape 1 [4]].

(** ** Definition events of a buffer *)

(** [GetDeviceBufferDefinitionEvents]: every definition event of the buffer
    is inserted into the set the caller passes. *)
Definition GetDeviceBufferDefinitionEvents (buffer : BufferPtr)
    (events : gset nat) : M (gset nat) :=
  b <- get_buffer buffer ;;
  ret (foldl (fun acc e => {[ e ]} ∪ acc) events (definition_events_ b)).

(** The loop of [WaitForBufferDefinitionEventsOnStream] over the events in
    the order the set hands them out. *)
Fixpoint wait_for_each (l : list EventPtr) (s : Stream) : M unit :=
  match l with
  | [] => ret tt
  | e :: rest => WaitForEventOnStream e s ;;; wait_for_each rest s
  end.

(** [WaitForBufferDefinitionEventsOnStream].  The order in which a
    [flat_hash_set] is walked is not specified; [iteration] stands for it. *)
Definition WaitForBufferDefinitionEventsOnStream
    (iteration : gset nat -> list EventPtr) (buffer : BufferPtr) (s : Stream)
  : M unit :=
  events <- GetDeviceBufferDefinitionEvents buffer ∅ ;;
  wait_for_each (iteration events) s.

(** What is known of a walk over a set: every element once. *)
Definition walks_each_once (iteration : gset nat -> list EventPtr) : Prop :=
  forall X : gset nat, iteration X ≡ₚ elements X.

(** The streams the event at [p] is defined on, if there is such an event. *)
Definition streams_at (p : EventPtr) (w : World) : list Stream :=
  match events w !! p with
  | Some e => streams_defined_on_ e
  | None => []
  end.

(** Whether the event at [p] still needs a wait instruction for [s]. *)
Definition needs_wait (w : World) (s : Stream) (p : EventPtr) : bool :=
  negb (found s (streams_at p w)).

(** ** Counting calls *)


Definition net_external_references (c : Call) : Z :=
  match c with
  | CallAddExternalReference => 1
  | CallDropExternalReference => -1
  | _ => 0
  end.

Definition total_net_external_references (cs : list Call) : Z :=
  foldr (fun c n => net_external_references c + n) 0 cs.

(** The conversions a call sequence makes on stream [s], as event
    addresses. *)
Definition converted_on (s : Stream) (c : Call) : list EventPtr :=
  match c with
  | CallConvertUsageHold s' e _ => if Nat.eqb s' s then [e] else []
  | _ => []
  end.

Definition is_hold_call (c : Call) : bool :=
  match c with
  | CallAddUsageHold | CallDropUsageHold | CallConvertUsageHold _ _ _ => true
  | _ => false
  end.

(** The fields of a buffer that are fixed at construction. *)
Definition same_storage (b b' : SharedDeviceBuffer) : Prop :=
  allocator_ b' = allocator_ b /\
  device_ordinal_ b' = device_ordinal_ b /\
  device_memory_ b' = device_memory_ b /\
  definition_events_ b' = definition_events_ b /\
  on_delete_callback_ b' = on_delete_callback_ b.

(** The calls that can still return once the buffer is no longer in use. *)
Definition allowed_after_lock (c : Call) : bool :=
  match c with
  | CallDropExternalReference
  | CallSetDefinitionEvent _ _ _
  | CallWaitForEventOnStream _ _ => true
  | _ => false
  end.

(** Event [a] is [b] itself, or both are recorded and [a]'s sequence number
    is not the greater one. *)
Definition not_later (w : World) (a b : EventPtr) : Prop :=
  a = b \/
  exists n n',
    recorded_sequence_number w a = Some n /\
    recorded_sequence_number w b = Some n' /\
    n <= n'.

(** The events a sequence of calls converts holds to on stream [s]. *)
Definition conversions_on (s : Stream) (cs : list Call) : list EventPtr :=
  flat_map (converted_on s) cs.

(** For every stream, the entry of [l] holds one of the events converted on
    that stream, and none of those is later than it; a stream without an
    entry has had no conversion. *)
Definition holds_latest (w : World) (cs : list Call)
    (l : list StreamAndEvent) : Prop :=
  forall s,
    match entry_for s l with
    | None => conversions_on s cs = []
    | Some x =>
        event x ∈ conversions_on s cs /\
        forall ev, ev ∈ conversions_on s cs -> not_later w ev (event x)
    end.

(** Whether the event at [p] exists and has its record. *)
Definition recorded_at (w : World) (p : EventPtr) : bool :=
  match events w !! p with
  | Some e => EventHasBeenRecorded e
  | None => false
  end.

(** The distinct definition events of a buffer, as the set would list
    them. *)
Definition distinct_definition_events (b : SharedDeviceBuffer)
  : list EventPtr :=
  elements (list_to_set (definition_events_ b) : gset nat).

(** A buffer of one region whose contents are defined by the events
    [defs]. *)
Definition buffer_defined_by (defs : list EventPtr) : SharedDeviceBuffer :=
  SharedDeviceBuffer_new (Some 1%nat) 0 [region 4096 64] defs None.

(** * Properties *)

(** ** The method monad *)

Lemma bind_Done {A B} (m : M A) (k : A -> M B) w a w' :
  m w = Done (a, w') -> bind m k w = k a w'.
Proof. intros H. unfold bind. now rewrite H. Qed.

Lemma bind_Crash {A B} (m : M A) (k : A -> M B) w :
  m w = Crash -> bind m k w = Crash.
Proof. intros H. unfold bind. now rewrite H. Qed.

Lemma bind_Blocked {A B} (m : M A) (k : A -> M B) w :
  m w = Blocked -> bind m k w = Blocked.
Proof. intros H. unfold bind. now rewrite H. Qed.

Lemma bind_inv {A B} (m : M A) (k : A -> M B) w r :
  bind m k w = Done r ->
  exists a w', m w = Done (a, w') /\ k a w' = Done r.
Proof.
  unfold bind. destruct (m w) as [[a w']| |]; try discriminate.
  intros H. now exists a, w'.
Qed.

Lemma CHECK_inv c w r : CHECK c w = Done r -> c = true /\ r = (tt, w).
Proof. unfold CHECK. destruct c; [intros [= <-]; auto | discriminate]. Qed.

Lemma get_event_eq p w e :
  events w !! p = Some e -> get_event p w = Done (e, w).
Proof. intros H. unfold get_event. now rewrite H. Qed.

Lemma get_buffer_eq p w b :
  buffers_store w !! p = Some b -> get_buffer p w = Done (b, w).
Proof. intros H. unfold get_buffer. now rewrite H. Qed.

Lemma get_buffer_inv p w b w' :
  get_buffer p w = Done (b, w') -> buffers_store w !! p = Some b /\ w' = w.
Proof.
  unfold get_buffer. destruct (buffers_store w !! p); [|discriminate].
  now intros [= -> ->].
Qed.

Lemma World_eta w :
  {| events := events w; buffers_store := buffers_store w;
     effects := effects w |} = w.
Proof. now destruct w. Qed.

(** ** BufferDefinitionEvent *)

Lemma found_In s l : found s l = true <-> s ∈ l.
Proof.
  unfold found. rewrite existsb_exists, list_elem_of_In. split.
  - intros (x & Hx & Heq). apply Nat.eqb_eq in Heq. now subst.
  - intros H. exists s. split; [assumption | apply Nat.eqb_refl].
Qed.

Lemma found_app s l1 l2 : found s (l1 ++ l2) = found s l1 || found s l2.
Proof. apply existsb_app. Qed.

Lemma sequence_number_eq w self e :
  events w !! self = Some e ->
  sequence_number self w =
    if EventHasBeenRecorded e then Done (h_sequence_number (event_ e), w)
    else Crash.
Proof.
  intros H. unfold sequence_number.
  rewrite (bind_Done _ _ _ _ _ (get_event_eq _ _ _ H)).
  unfold bind, CHECK, ret. now destruct (EventHasBeenRecorded e).
Qed.

(** C4 (as the code has it): [sequence_number] never parks the caller.  On
    an event whose record is set it returns the record's sequence number and
    changes nothing; on an event whose record is not set its [CHECK] fails and
    the process aborts. *)
Theorem sequence_number_checks_not_awaits (w : World) (self : EventPtr)
    (e : BufferDefinitionEvent) :
  events w !! self = Some e ->
  sequence_number self w <> Blocked /\
  (EventHasBeenRecorded e = true ->
   sequence_number self w = Done (h_sequence_number (event_ e), w)) /\
  (EventHasBeenRecorded e = false -> sequence_number self w = Crash).
Proof.
  intros H. rewrite (sequence_number_eq _ _ _ H).
  destruct (EventHasBeenRecorded e); repeat split; congruence.
Qed.

Lemma sequence_number_checks_not_awaits_witness :
  events world_set_event !! 0%nat =
    Some {| event_ := handle 40 5; streams_defined_on_ := [7%nat] |} /\
  sequence_number 0%nat world_set_event = Done (5, world_set_event).
Proof.
  split; [reflexivity|].
  apply (sequence_number_checks_not_awaits world_set_event 0%nat
           {| event_ := handle 40 5; streams_defined_on_ := [7%nat] |});
    reflexivity.
Defined.

(** C4, the claim as stated fails: on an event whose record has not been set
    the call does not park; it aborts. *)
Lemma sequence_number_unset_aborts :
  EventHasBeenRecorded BufferDefinitionEvent_new = false /\
  events world_unset_event !! 0%nat = Some BufferDefinitionEvent_new /\
  sequence_number 0%nat world_unset_event = Crash /\
  sequence_number 0%nat world_unset_event <> Blocked.
Proof. repeat split; try reflexivity. discriminate. Qed.

Lemma WaitForEventOnStream_eq w self e s :
  events w !! self = Some e ->
  WaitForEventOnStream self s w =
    if EventHasBeenRecorded e then
      if found s (streams_defined_on_ e) then Done (tt, w)
      else Done (tt, {| events :=
                          <[self := {| event_ := event_ e;
                                       streams_defined_on_ :=
                                         streams_defined_on_ e ++ [s] |}]>
                            (events w);
                        buffers_store := buffers_store w;
                        effects :=
                          effects w ++ [ThenWaitFor s (h_event (event_ e))] |})
    else Blocked.
Proof.
  intros H. unfold WaitForEventOnStream.
  rewrite (bind_Done _ _ _ _ _ (get_event_eq _ _ _ H)).
  unfold bind, Await. destruct (EventHasBeenRecorded e); [|reflexivity].
  destruct (found s (streams_defined_on_ e)); reflexivity.
Qed.

Lemma waits_issued_app s l1 l2 :
  waits_issued s (l1 ++ l2) = (waits_issued s l1 + waits_issued s l2)%nat.
Proof. unfold waits_issued. now rewrite filter_app, length_app. Qed.

Lemma waits_issued_one s marker :
  waits_issued s [ThenWaitFor s marker] = 1%nat.
Proof.
  unfold waits_issued. rewrite filter_cons_True; [reflexivity|].
  simpl. apply Nat.eqb_refl.
Qed.

Lemma count_occ_push_absent (s : Stream) (l : list Stream) :
  s ∉ l -> count_occ Nat.eq_dec (l ++ [s]) s = 1%nat.
Proof.
  unfold Stream in *. rewrite list_elem_of_In. intros H.
  rewrite count_occ_app.
  apply (count_occ_not_In Nat.eq_dec) in H. rewrite H. simpl.
  destruct (Nat.eq_dec s s); [reflexivity | congruence].
Qed.

Lemma count_occ_NoDup_In (s : Stream) (l : list Stream) :
  NoDup l -> s ∈ l -> count_occ Nat.eq_dec l s = 1%nat.
Proof.
  unfold Stream in *. intros Hnd Hin. apply NoDup_ListNoDup in Hnd.
  apply list_elem_of_In in Hin.
  exact (proj1 (NoDup_count_occ' Nat.eq_dec l) Hnd s Hin).
Qed.

(** C6 (as the code has it): on an event whose record is set,
    [WaitForEventOnStream] returns without parking; a second call with the
    same stream changes nothing and issues nothing.  The two calls together
    issue one wait instruction to the stream when it was not among the
    streams the event is defined on, and none when it already was; after them
    the stream occurs once in [streams_defined_on_]. *)
Theorem WaitForEventOnStream_idempotent (w : World) (self : EventPtr)
    (e : BufferDefinitionEvent) (s : Stream) :
  events w !! self = Some e ->
  EventHasBeenRecorded e = true ->
  NoDup (streams_defined_on_ e) ->
  exists w1 e1,
    WaitForEventOnStream self s w = Done (tt, w1) /\
    WaitForEventOnStream self s w1 = Done (tt, w1) /\
    (s ∈ streams_defined_on_ e -> w1 = w) /\
    (s ∉ streams_defined_on_ e ->
     effects w1 = effects w ++ [ThenWaitFor s (h_event (event_ e))]) /\
    waits_issued s (effects w1) =
      (waits_issued s (effects w) +
       if found s (streams_defined_on_ e) then 0 else 1)%nat /\
    events w1 !! self = Some e1 /\
    event_ e1 = event_ e /\
    count_occ Nat.eq_dec (streams_defined_on_ e1) s = 1%nat.
Proof.
  intros Hget Hset Hnd.
  rewrite (WaitForEventOnStream_eq _ _ _ _ Hget), Hset.
  destruct (found s (streams_defined_on_ e)) eqn:Hf.
  - apply found_In in Hf. exists w, e.
    rewrite (WaitForEventOnStream_eq _ _ _ _ Hget), Hset.
    rewrite (proj2 (found_In _ _) Hf).
    repeat split; auto using count_occ_NoDup_In; try tauto.
  - assert (Hnot : s ∉ streams_defined_on_ e).
    { intros Hin. apply found_In in Hin. congruence. }
    eexists. exists {| event_ := event_ e;
                       streams_defined_on_ := streams_defined_on_ e ++ [s] |}.
    split; [reflexivity|].
    split.
    { erewrite WaitForEventOnStream_eq
        by (simpl; apply lookup_insert_eq).
      unfold EventHasBeenRecorded in *. simpl.
      rewrite Hset, found_app. simpl. rewrite Nat.eqb_refl.
      now rewrite orb_true_r. }
    simpl. repeat split.
    + tauto.
    + rewrite waits_issued_app, waits_issued_one. reflexivity.
    + apply lookup_insert_eq.
    + now apply count_occ_push_absent.
Qed.

Lemma WaitForEventOnStream_idempotent_witness :
  exists w1 e1,
    WaitForEventOnStream 0%nat 9%nat world_set_event = Done (tt, w1) /\
    WaitForEventOnStream 0%nat 9%nat w1 = Done (tt, w1) /\
    (9%nat ∈ [7%nat] -> w1 = world_set_event) /\
    (9%nat ∉ [7%nat] ->
     effects w1 = [ThenWaitFor 9%nat (Some 40%nat)]) /\
    waits_issued 9%nat (effects w1) = 1%nat /\
    events w1 !! 0%nat = Some e1 /\
    event_ e1 = handle 40 5 /\
    count_occ Nat.eq_dec (streams_defined_on_ e1) 9%nat = 1%nat.
Proof.
  apply (WaitForEventOnStream_idempotent world_set_event 0%nat
           {| event_ := handle 40 5; streams_defined_on_ := [7%nat] |} 9%nat).
  - reflexivity.
  - reflexivity.
  - apply NoDup_singleton.
Defined.

(** C6, the claim as stated fails: after the record is set on stream 7, two
    calls of [WaitForEventOnStream] with stream 7 issue no wait instruction
    to it, not one. *)
Lemma WaitForEventOnStream_twice_on_recording_stream :
  exists w1 w2 w3,
    SetDefinitionEvent 0%nat (handle 40 5) 7%nat world_unset_event
      = Done (tt, w1) /\
    WaitForEventOnStream 0%nat 7%nat w1 = Done (tt, w2) /\
    WaitForEventOnStream 0%nat 7%nat w2 = Done (tt, w3) /\
    waits_issued 7%nat (effects w3) = 0%nat /\
    waits_issued 7%nat (effects w3) <> 1%nat.
Proof.
  exists world_set_event, world_set_event, world_set_event.
  repeat split; discriminate.
Qed.

(** ** The hold protocol, call by call *)

Ltac run_method H :=
  rewrite (bind_Done _ _ _ _ _ (get_buffer_eq _ _ _ H));
  unfold bind, CHECK, Await, put_buffer, ret.

Lemma AddUsageHold_eq w self b :
  buffers_store w !! self = Some b ->
  AddUsageHold self w =
    if in_use_ b
    then Done (tt, update_buffer self (set_usage_holds (usage_holds_ b + 1) b) w)
    else Crash.
Proof.
  intros H. unfold AddUsageHold. run_method H. now destruct (in_use_ b).
Qed.

Lemma DropUsageHold_eq w self b :
  buffers_store w !! self = Some b ->
  DropUsageHold self w =
    if in_use_ b && (usage_holds_ b >? 0)
    then Done (tt, update_buffer self (set_usage_holds (usage_holds_ b - 1) b) w)
    else Crash.
Proof.
  intros H. unfold DropUsageHold. run_method H.
  now destruct (in_use_ b), (usage_holds_ b >? 0).
Qed.

Lemma AddExternalReference_eq w self b :
  buffers_store w !! self = Some b ->
  AddExternalReference self w =
    if in_use_ b
    then Done (tt, update_buffer self
                     (set_external_references (external_references_ b + 1) b) w)
    else Crash.
Proof.
  intros H. unfold AddExternalReference. run_method H.
  now destruct (in_use_ b).
Qed.

Lemma DropExternalReference_eq w self b :
  buffers_store w !! self = Some b ->
  DropExternalReference self w =
    if external_references_ b >? 0
    then Done (tt, update_buffer self
                     (set_external_references (external_references_ b - 1) b) w)
    else Crash.
Proof.
  intros H. unfold DropExternalReference. run_method H.
  now destruct (external_references_ b >? 0).
Qed.

Lemma LockUseAndTransferUsageEvents_eq w self b :
  buffers_store w !! self = Some b ->
  LockUseAndTransferUsageEvents self w =
    if in_use_ b then
      if usage_holds_ b =? 0
      then Done (usage_events_ b,
                 update_buffer self (set_usage_events [] (set_in_use false b)) w)
      else Blocked
    else Crash.
Proof.
  intros H. unfold LockUseAndTransferUsageEvents. run_method H.
  destruct (in_use_ b); [|reflexivity].
  now destruct (usage_holds_ b =? 0).
Qed.

Lemma recorded_sequence_number_eq w p n :
  recorded_sequence_number w p = Some n ->
  sequence_number p w = Done (n, w).
Proof.
  unfold recorded_sequence_number.
  destruct (events w !! p) as [e|] eqn:He; [|discriminate].
  rewrite (sequence_number_eq _ _ _ He).
  destruct (EventHasBeenRecorded e); [|discriminate]. now intros [= ->].
Qed.

Lemma sequence_number_inv w p n w' :
  sequence_number p w = Done (n, w') ->
  recorded_sequence_number w p = Some n /\ w' = w.
Proof.
  unfold sequence_number, recorded_sequence_number, bind, get_event, CHECK, ret.
  destruct (events w !! p) as [e|]; [|discriminate].
  destruct (EventHasBeenRecorded e); [|discriminate].
  now intros [= -> ->].
Qed.

Lemma sequence_number_not_Blocked w p : sequence_number p w <> Blocked.
Proof.
  unfold sequence_number, bind, get_event, CHECK, ret.
  destruct (events w !! p) as [e|]; [|discriminate].
  destruct (EventHasBeenRecorded e); discriminate.
Qed.

Lemma event_lt_eq w a b na nb :
  recorded_sequence_number w a = Some na ->
  recorded_sequence_number w b = Some nb ->
  event_lt a b w = Done (na <? nb, w).
Proof.
  intros Ha Hb. unfold event_lt.
  rewrite (bind_Done _ _ _ _ _ (recorded_sequence_number_eq _ _ _ Ha)).
  now rewrite (bind_Done _ _ _ _ _ (recorded_sequence_number_eq _ _ _ Hb)).
Qed.

Lemma event_lt_inv w a b r w' :
  event_lt a b w = Done (r, w') ->
  exists na nb,
    recorded_sequence_number w a = Some na /\
    recorded_sequence_number w b = Some nb /\
    r = (na <? nb) /\ w' = w.
Proof.
  unfold event_lt. intros H.
  apply bind_inv in H as (na & w1 & Ha & H).
  apply sequence_number_inv in Ha as [Ha ->].
  apply bind_inv in H as (nb & w2 & Hb & H).
  apply sequence_number_inv in Hb as [Hb ->].
  unfold ret in H. injection H as <- <-. now exists na, nb.
Qed.

Lemma entry_for_stream s l x : entry_for s l = Some x -> stream x = s.
Proof.
  unfold entry_for. intros H. apply find_some in H as [_ H].
  now apply Nat.eqb_eq in H.
Qed.

Lemma entry_for_None s l : entry_for s l = None <-> s ∉ map stream l.
Proof.
  unfold entry_for. induction l as [|x l IH]; simpl.
  - split; [intros _; apply not_elem_of_nil | reflexivity].
  - rewrite not_elem_of_cons. destruct (Nat.eqb_spec (stream x) s) as [E|E].
    + split; [discriminate | intros [H _]; congruence].
    + rewrite IH. intuition congruence.
Qed.

Lemma entry_for_Some_elem s l x : entry_for s l = Some x -> s ∈ map stream l.
Proof.
  intros H. destruct (decide (s ∈ map stream l)) as [|Hn]; [assumption|].
  apply entry_for_None in Hn. congruence.
Qed.

Lemma supersede_streams s ev held l :
  map stream (supersede s ev held l) = map stream l.
Proof.
  induction l as [|x l IH]; simpl; [reflexivity|].
  destruct (Nat.eqb (stream x) s); simpl; [reflexivity | now rewrite IH].
Qed.

Lemma supersede_length s ev held l :
  length (supersede s ev held l) = length l.
Proof.
  rewrite <- (length_map stream), supersede_streams. apply length_map.
Qed.

Lemma supersede_entry s ev held l x :
  entry_for s l = Some x ->
  entry_for s (supersede s ev held l)
    = Some {| stream := s; event := ev; reference_held := held |}.
Proof.
  unfold entry_for. induction l as [|y l IH]; simpl; [discriminate|].
  destruct (Nat.eqb_spec (stream y) s) as [E|E]; simpl.
  - intros _. rewrite E, Nat.eqb_refl. reflexivity.
  - intros H. apply Nat.eqb_neq in E. rewrite E. now apply IH.
Qed.

Lemma supersede_other s ev held l s' :
  s' <> s -> entry_for s' (supersede s ev held l) = entry_for s' l.
Proof.
  intros Hne. unfold entry_for. induction l as [|y l IH]; simpl; [reflexivity|].
  destruct (Nat.eqb_spec (stream y) s) as [E|E]; simpl.
  - rewrite E. apply Nat.eqb_neq in Hne. rewrite Nat.eqb_sym in Hne.
    now rewrite Hne.
  - now rewrite IH.
Qed.

(** The loop of [ConvertUsageHold], by cases on the entry it finds. *)
Lemma record_usage_event_absent w s ev held l :
  entry_for s l = None ->
  record_usage_event s ev held l w
    = Done (l ++ [{| stream := s; event := ev; reference_held := held |}], w).
Proof.
  unfold entry_for. induction l as [|x l IH]; simpl; [reflexivity|].
  destruct (Nat.eqb (stream x) s); [discriminate|].
  intros H. unfold bind. now rewrite (IH H).
Qed.

Lemma record_usage_event_present w s ev held l x n_old n_new :
  entry_for s l = Some x ->
  recorded_sequence_number w (event x) = Some n_old ->
  recorded_sequence_number w ev = Some n_new ->
  record_usage_event s ev held l w
    = Done (if n_old <? n_new then supersede s ev held l else l, w).
Proof.
  unfold entry_for. induction l as [|y l IH]; simpl; [discriminate|].
  destruct (Nat.eqb (stream y) s) eqn:E.
  - intros [= ->] Hold Hnew.
    rewrite (bind_Done _ _ _ _ _ (event_lt_eq _ _ _ _ _ Hold Hnew)).
    now destruct (n_old <? n_new).
  - intros H Hold Hnew. unfold bind. rewrite (IH H Hold Hnew).
    now destruct (n_old <? n_new).
Qed.

Lemma record_usage_event_inv w s ev held l l' w' :
  record_usage_event s ev held l w = Done (l', w') ->
  w' = w /\
  match entry_for s l with
  | None =>
      l' = l ++ [{| stream := s; event := ev; reference_held := held |}]
  | Some x =>
      exists n_old n_new,
        recorded_sequence_number w (event x) = Some n_old /\
        recorded_sequence_number w ev = Some n_new /\
        l' = if n_old <? n_new then supersede s ev held l else l
  end.
Proof.
  destruct (entry_for s l) as [x|] eqn:E.
  - revert l' w' E. unfold entry_for.
    induction l as [|y l IH]; simpl; [discriminate|].
    intros l' w'. destruct (Nat.eqb (stream y) s) eqn:Es.
    + intros [= ->] H. apply bind_inv in H as (r & w1 & Hlt & H).
      apply event_lt_inv in Hlt as (na & nb & Ha & Hb & -> & ->).
      split.
      * destruct (na <? nb); unfold ret in H; congruence.
      * exists na, nb. repeat split; try assumption.
        destruct (na <? nb); unfold ret in H; congruence.
    + intros Hx H. apply bind_inv in H as (r & w1 & Hr & H).
      destruct (IH r w1 Hx Hr) as (-> & na & nb & Ha & Hb & ->).
      unfold ret in H. injection H as <- <-. split; [reflexivity|].
      exists na, nb. repeat split; try assumption.
      now destruct (na <? nb).
  - rewrite (record_usage_event_absent _ _ _ _ _ E). now intros [= <- <-].
Qed.

Lemma record_usage_event_not_Blocked w s ev held l :
  record_usage_event s ev held l w <> Blocked.
Proof.
  induction l as [|x l IH]; simpl; [discriminate|].
  destruct (Nat.eqb (stream x) s).
  - unfold bind, event_lt. unfold bind at 1.
    pose proof (sequence_number_not_Blocked w (event x)) as H1.
    destruct (sequence_number (event x) w) as [[na w1]| |];
      [|congruence|discriminate].
    unfold bind.
    pose proof (sequence_number_not_Blocked w1 ev) as H2.
    destruct (sequence_number ev w1) as [[nb w2]| |];
      [|congruence|discriminate].
    unfold ret. destruct (na <? nb); discriminate.
  - unfold bind.
    destruct (record_usage_event s ev held l w) as [[r w1]| |];
      [discriminate|congruence|discriminate].
Qed.

Lemma ConvertUsageHold_eq w self b s ev held :
  buffers_store w !! self = Some b ->
  ConvertUsageHold self s ev held w =
    if in_use_ b && (usage_holds_ b >? 0) then
      match record_usage_event s ev held (usage_events_ b) w with
      | Done (l, _) =>
          Done (tt, update_buffer self
                      (set_usage_events l
                         (set_usage_holds (usage_holds_ b - 1) b)) w)
      | Blocked => Blocked
      | Crash => Crash
      end
    else Crash.
Proof.
  intros H. unfold ConvertUsageHold. run_method H.
  destruct (in_use_ b); [|reflexivity].
  destruct (usage_holds_ b >? 0); [|reflexivity]. simpl.
  destruct (record_usage_event s ev held (usage_events_ b) w)
    as [[l w1]| |] eqn:E; [|reflexivity|reflexivity].
  now apply record_usage_event_inv in E as [-> _].
Qed.

Lemma usage_events_at_update self b w :
  usage_events_at self (update_buffer self b w) = usage_events_ b.
Proof.
  unfold usage_events_at, update_buffer. simpl. now rewrite lookup_insert_eq.
Qed.

Lemma recorded_sequence_number_update_buffer self b w p :
  recorded_sequence_number (update_buffer self b w) p
    = recorded_sequence_number w p.
Proof. reflexivity. Qed.

Lemma entry_for_app_absent s l x :
  entry_for s l = None -> stream x = s -> entry_for s (l ++ [x]) = Some x.
Proof.
  unfold entry_for. intros Hl Hx. induction l as [|y l IH]; simpl in *.
  - now rewrite Hx, Nat.eqb_refl.
  - destruct (Nat.eqb (stream y) s); [discriminate | now apply IH].
Qed.

Lemma entry_for_app_other (s' : Stream) l x :
  stream x <> s' -> entry_for s' (l ++ [x]) = entry_for s' l.
Proof.
  unfold entry_for. intros Hx. induction l as [|y l IH]; simpl.
  - apply Nat.eqb_neq in Hx. now rewrite Hx.
  - now rewrite IH.
Qed.

Lemma ConvertUsageHold_absent w self b s ev held :
  buffers_store w !! self = Some b ->
  in_use_ b = true ->
  usage_holds_ b > 0 ->
  entry_for s (usage_events_ b) = None ->
  ConvertUsageHold self s ev held w =
    Done (tt, update_buffer self
                (set_usage_events
                   (usage_events_ b ++
                      [{| stream := s; event := ev; reference_held := held |}])
                   (set_usage_holds (usage_holds_ b - 1) b)) w).
Proof.
  intros Hb Hu Hh He. rewrite (ConvertUsageHold_eq _ _ _ _ _ _ Hb), Hu.
  replace (usage_holds_ b >? 0) with true by (symmetry; lia). simpl.
  now rewrite (record_usage_event_absent _ _ _ _ _ He).
Qed.

Lemma ConvertUsageHold_present w self b s ev held x n_old n_new :
  buffers_store w !! self = Some b ->
  in_use_ b = true ->
  usage_holds_ b > 0 ->
  entry_for s (usage_events_ b) = Some x ->
  recorded_sequence_number w (event x) = Some n_old ->
  recorded_sequence_number w ev = Some n_new ->
  ConvertUsageHold self s ev held w =
    Done (tt, update_buffer self
                (set_usage_events
                   (if n_old <? n_new
                    then supersede s ev held (usage_events_ b)
                    else usage_events_ b)
                   (set_usage_holds (usage_holds_ b - 1) b)) w).
Proof.
  intros Hb Hu Hh He Hold Hnew.
  rewrite (ConvertUsageHold_eq _ _ _ _ _ _ Hb), Hu.
  replace (usage_holds_ b >? 0) with true by (symmetry; lia). simpl.
  now rewrite (record_usage_event_present _ _ _ _ _ _ _ _ He Hold Hnew).
Qed.

(** Two conversions on a stream the buffer has no entry for: the entry left
    for the stream is the one with the greater sequence number, or the first
    of the two when neither is greater. *)
Lemma ConvertUsageHold_twice w self b s ev1 held1 ev2 held2 n1 n2 :
  buffers_store w !! self = Some b ->
  in_use_ b = true ->
  usage_holds_ b >= 2 ->
  entry_for s (usage_events_ b) = None ->
  recorded_sequence_number w ev1 = Some n1 ->
  recorded_sequence_number w ev2 = Some n2 ->
  exists w',
    (ConvertUsageHold self s ev1 held1 ;;;
     ConvertUsageHold self s ev2 held2) w = Done (tt, w') /\
    entry_for s (usage_events_at self w') =
      Some (if n1 <? n2
            then {| stream := s; event := ev2; reference_held := held2 |}
            else {| stream := s; event := ev1; reference_held := held1 |}).
Proof.
  intros Hb Hu Hh He H1 H2.
  set (x := {| stream := s; event := ev1; reference_held := held1 |}).
  eexists. split.
  - erewrite bind_Done; [|apply ConvertUsageHold_absent; eauto; lia].
    eapply (ConvertUsageHold_present _ _ _ _ _ _ x n1 n2).
    + apply lookup_insert_eq.
    + exact Hu.
    + simpl. lia.
    + simpl. now apply entry_for_app_absent.
    + exact H1.
    + exact H2.
  - rewrite usage_events_at_update. simpl.
    assert (Hx : entry_for s (usage_events_ b ++ [x]) = Some x)
      by now apply entry_for_app_absent.
    destruct (n1 <? n2); [|exact Hx].
    now rewrite (supersede_entry _ _ _ _ _ Hx).
Qed.

(** C2: when [usage_events_] already holds an entry for the stream,
    [ConvertUsageHold] replaces its event exactly when the new event's
    sequence number is strictly greater, and keeps the entry otherwise.  So
    two conversions on one stream with events of sequence numbers 5 and 3
    leave the event of sequence number 5 in the entry, in either order of
    the calls. *)
Theorem ConvertUsageHold_keeps_later_event (w : World) (self : BufferPtr)
    (b : SharedDeviceBuffer) (s : Stream) :
  buffers_store w !! self = Some b ->
  in_use_ b = true ->
  (forall existing ev held n_old n_new,
     usage_holds_ b > 0 ->
     entry_for s (usage_events_ b) = Some existing ->
     recorded_sequence_number w (event existing) = Some n_old ->
     recorded_sequence_number w ev = Some n_new ->
     exists w',
       ConvertUsageHold self s ev held w = Done (tt, w') /\
       (n_old < n_new ->
        event <$> entry_for s (usage_events_at self w') = Some ev) /\
       (n_new <= n_old ->
        entry_for s (usage_events_at self w') = Some existing)) /\
  (forall e5 e3 held5 held3,
     usage_holds_ b >= 2 ->
     entry_for s (usage_events_ b) = None ->
     recorded_sequence_number w e5 = Some 5 ->
     recorded_sequence_number w e3 = Some 3 ->
     (exists w',
        (ConvertUsageHold self s e5 held5 ;;;
         ConvertUsageHold self s e3 held3) w = Done (tt, w') /\
        event <$> entry_for s (usage_events_at self w') = Some e5) /\
     (exists w',
        (ConvertUsageHold self s e3 held3 ;;;
         ConvertUsageHold self s e5 held5) w = Done (tt, w') /\
        event <$> entry_for s (usage_events_at self w') = Some e5)).
Proof.
  intros Hb Hu. split.
  - intros x ev held n_old n_new Hh He Hold Hnew.
    eexists. split;
      [apply (ConvertUsageHold_present w self b s ev held x n_old n_new);
       assumption|].
    rewrite usage_events_at_update. simpl. split; intros Hlt.
    + replace (n_old <? n_new) with true by (symmetry; lia).
      now rewrite (supersede_entry _ _ _ _ _ He).
    + replace (n_old <? n_new) with false by (symmetry; lia). exact He.
  - intros e5 e3 held5 held3 Hh He H5 H3. split.
    + destruct (ConvertUsageHold_twice w self b s e5 held5 e3 held3 5 3)
        as (w' & Hrun & Hentry); auto.
      exists w'. split; [exact Hrun|]. now rewrite Hentry.
    + destruct (ConvertUsageHold_twice w self b s e3 held3 e5 held5 3 5)
        as (w' & Hrun & Hentry); auto.
      exists w'. split; [exact Hrun|]. now rewrite Hentry.
Qed.

Lemma ConvertUsageHold_keeps_later_event_witness :
  (exists w',
     (ConvertUsageHold 0%nat 7%nat 1%nat true ;;;
      ConvertUsageHold 0%nat 7%nat 2%nat false)
       (world_with_buffer (sample_buffer 2 [])) = Done (tt, w') /\
     event <$> entry_for 7%nat (usage_events_at 0%nat w') = Some 1%nat) /\
  (exists w',
     (ConvertUsageHold 0%nat 7%nat 2%nat false ;;;
      ConvertUsageHold 0%nat 7%nat 1%nat true)
       (world_with_buffer (sample_buffer 2 [])) = Done (tt, w') /\
     event <$> entry_for 7%nat (usage_events_at 0%nat w') = Some 1%nat).
Proof.
  apply (ConvertUsageHold_keeps_later_event
           (world_with_buffer (sample_buffer 2 [])) 0%nat
           (sample_buffer 2 []) 7%nat eq_refl eq_refl);
    [simpl; lia | reflexivity | reflexivity | reflexivity].
Defined.

(** C9: when the new event supersedes the entry of its stream,
    [ConvertUsageHold] stores the new call's event and its [reference_held]
    flag in that entry; when it does not, [usage_events_] is left as it was,
    old event and old flag included.  Entries of other streams are the same
    either way. *)
Theorem ConvertUsageHold_reference_held (w : World) (self : BufferPtr)
    (b : SharedDeviceBuffer) (s : Stream) (ev : EventPtr) (held : bool)
    (existing : StreamAndEvent) (n_old n_new : Z) :
  buffers_store w !! self = Some b ->
  in_use_ b = true ->
  usage_holds_ b > 0 ->
  entry_for s (usage_events_ b) = Some existing ->
  recorded_sequence_number w (event existing) = Some n_old ->
  recorded_sequence_number w ev = Some n_new ->
  exists w',
    ConvertUsageHold self s ev held w = Done (tt, w') /\
    (n_old < n_new ->
     entry_for s (usage_events_at self w')
       = Some {| stream := s; event := ev; reference_held := held |}) /\
    (~ n_old < n_new ->
     usage_events_at self w' = usage_events_ b /\
     entry_for s (usage_events_at self w') = Some existing) /\
    (forall s', s' <> s ->
       entry_for s' (usage_events_at self w')
         = entry_for s' (usage_events_ b)) /\
    length (usage_events_at self w') = length (usage_events_ b).
Proof.
  intros Hb Hu Hh He Hold Hnew.
  eexists. split;
    [apply (ConvertUsageHold_present w self b s ev held existing n_old n_new);
     assumption|].
  rewrite usage_events_at_update. simpl.
  destruct (Z.ltb_spec n_old n_new) as [Hlt|Hge].
  - repeat split; try lia.
    + intros _. now rewrite (supersede_entry _ _ _ _ _ He).
    + intros s' Hne. now apply supersede_other.
    + apply supersede_length.
  - repeat split; try lia; auto.
Qed.

Lemma ConvertUsageHold_reference_held_witness :
  exists w',
    ConvertUsageHold 0%nat 7%nat 1%nat true
      (world_with_buffer
         (sample_buffer 1
            [{| stream := 7%nat; event := 2%nat; reference_held := false |}]))
      = Done (tt, w') /\
    entry_for 7%nat (usage_events_at 0%nat w')
      = Some {| stream := 7%nat; event := 1%nat; reference_held := true |}.
Proof.
  destruct (ConvertUsageHold_reference_held
              (world_with_buffer
                 (sample_buffer 1
                    [{| stream := 7%nat; event := 2%nat;
                        reference_held := false |}]))
              0%nat
              (sample_buffer 1
                 [{| stream := 7%nat; event := 2%nat;
                     reference_held := false |}])
              7%nat 1%nat true
              {| stream := 7%nat; event := 2%nat; reference_held := false |}
              3 5 eq_refl eq_refl eq_refl eq_refl eq_refl eq_refl)
    as (w' & Hrun & Hnew & _).
  exists w'. split; [exact Hrun | apply Hnew; lia].
Defined.

(** ** Sequences of calls *)

Lemma SetDefinitionEvent_buffers self h s w w' :
  SetDefinitionEvent self h s w = Done (tt, w') ->
  buffers_store w' = buffers_store w.
Proof.
  unfold SetDefinitionEvent, bind, get_event, CHECK, put_event.
  destruct (events w !! self) as [e|]; [|discriminate].
  destruct (negb (EventHasBeenRecorded e)); [|discriminate].
  destruct (is_empty (streams_defined_on_ e)); [|discriminate].
  now intros [= <-].
Qed.

Lemma WaitForEventOnStream_buffers self s w w' :
  WaitForEventOnStream self s w = Done (tt, w') ->
  buffers_store w' = buffers_store w.
Proof.
  unfold WaitForEventOnStream, bind, get_event, Await, put_event, emit, ret.
  destruct (events w !! self) as [e|]; [|discriminate].
  destruct (EventHasBeenRecorded e); [|discriminate].
  destruct (found s (streams_defined_on_ e)); now intros [= <-].
Qed.

Lemma call_effect_same c b :
  net_holds c = 0 -> converted_stream c = [] -> call_effect c b b.
Proof.
  intros Hn Hc. split; auto; try lia.
  intros _ s. rewrite Hc. rewrite elem_of_nil. tauto.
Qed.

Lemma record_usage_event_streams w s ev held l l' w' :
  record_usage_event s ev held l w = Done (l', w') ->
  map stream l' =
    match entry_for s l with
    | Some _ => map stream l
    | None => map stream l ++ [s]
    end.
Proof.
  intros H. apply record_usage_event_inv in H as [_ H].
  destruct (entry_for s l) as [x|].
  - destruct H as (na & nb & _ & _ & ->).
    destruct (na <? nb); [apply supersede_streams | reflexivity].
  - subst l'. now rewrite map_app.
Qed.

Lemma call_buffer self c w w' b :
  buffers_store w !! self = Some b ->
  call self c w = Done (tt, w') ->
  exists b', buffers_store w' !! self = Some b' /\ call_effect c b b'.
Proof.
  intros Hb. destruct c; simpl.
  - rewrite (AddUsageHold_eq _ _ _ Hb).
    destruct (in_use_ b) eqn:Hu; [|discriminate]. intros [= <-].
    eexists. split; [apply lookup_insert_eq|].
    split; simpl; auto; try lia.
    intros _ s. rewrite elem_of_nil. tauto.
  - rewrite (DropUsageHold_eq _ _ _ Hb).
    destruct (in_use_ b) eqn:Hu; [|discriminate].
    destruct (usage_holds_ b >? 0) eqn:Hh; [|discriminate]. intros [= <-].
    eexists. split; [apply lookup_insert_eq|].
    split; simpl; auto; try lia.
    intros _ s. rewrite elem_of_nil. tauto.
  - rewrite (ConvertUsageHold_eq _ _ _ _ _ _ Hb).
    destruct (in_use_ b) eqn:Hu; [|discriminate].
    destruct (usage_holds_ b >? 0) eqn:Hh; [|discriminate]. simpl.
    destruct (record_usage_event usage_stream ev held (usage_events_ b) w)
      as [[l w1]| |] eqn:E; [|discriminate|discriminate].
    intros [= <-].
    apply record_usage_event_streams in E.
    eexists. split; [apply lookup_insert_eq|].
    split; simpl; auto; try lia.
    + intros Hnd. rewrite E.
      destruct (entry_for usage_stream (usage_events_ b)) eqn:Ee;
        [assumption|].
      apply NoDup_app. split; [assumption|]. split.
      * intros x Hx Hx'. apply list_elem_of_singleton in Hx'. subst x.
        now apply entry_for_None in Ee.
      * apply NoDup_singleton.
    + intros _ s. rewrite E.
      destruct (entry_for usage_stream (usage_events_ b)) eqn:Ee.
      * apply entry_for_Some_elem in Ee.
        rewrite list_elem_of_singleton. intuition congruence.
      * rewrite elem_of_app. reflexivity.
  - rewrite (AddExternalReference_eq _ _ _ Hb).
    destruct (in_use_ b) eqn:Hu; [|discriminate]. intros [= <-].
    eexists. split; [apply lookup_insert_eq|].
    split; simpl; auto; try lia.
    intros _ s. rewrite elem_of_nil. tauto.
  - rewrite (DropExternalReference_eq _ _ _ Hb).
    destruct (external_references_ b >? 0); [|discriminate]. intros [= <-].
    eexists. split; [apply lookup_insert_eq|].
    split; simpl; auto; try lia.
    intros _ s. rewrite elem_of_nil. tauto.
  - unfold bind. rewrite (LockUseAndTransferUsageEvents_eq _ _ _ Hb).
    destruct (in_use_ b) eqn:Hu; [|discriminate].
    destruct (usage_holds_ b =? 0); [|discriminate].
    unfold ret. intros [= <-].
    eexists. split; [apply lookup_insert_eq|].
    split; simpl; auto; try lia; try discriminate.
    intros _. apply NoDup_nil_2.
  - intros H. apply SetDefinitionEvent_buffers in H. rewrite H.
    exists b. split; [assumption | now apply call_effect_same].
  - intros H. apply WaitForEventOnStream_buffers in H. rewrite H.
    exists b. split; [assumption | now apply call_effect_same].
Qed.

Lemma calls_buffer self cs : forall w w' b,
  buffers_store w !! self = Some b ->
  calls self cs w = Done (tt, w') ->
  exists b',
    buffers_store w' !! self = Some b' /\
    usage_holds_ b' = usage_holds_ b + total_net_holds cs /\
    (0 <= usage_holds_ b -> 0 <= usage_holds_ b') /\
    (forallb (fun c => negb (is_lock_call c)) cs = true ->
     in_use_ b' = in_use_ b) /\
    (in_use_ b = false -> in_use_ b' = false) /\
    (NoDup (map stream (usage_events_ b)) ->
     NoDup (map stream (usage_events_ b'))) /\
    (forallb (fun c => negb (is_lock_call c)) cs = true ->
     forall s,
       s ∈ map stream (usage_events_ b') <->
       s ∈ map stream (usage_events_ b) \/
       s ∈ concat (map converted_stream cs)).
Proof.
  induction cs as [|c cs IH]; intros w w' b Hb; simpl.
  - unfold ret. intros [= <-]. exists b.
    split; [assumption|]. split; [lia|].
    split; [auto|]. split; [auto|]. split; [auto|]. split; [auto|].
    intros _ s. rewrite elem_of_nil. tauto.
  - intros H. apply bind_inv in H as ([] & w1 & Hc & Hcs).
    destruct (call_buffer _ _ _ _ _ Hb Hc) as (b1 & Hb1 & E).
    destruct (IH _ _ _ Hb1 Hcs)
      as (b' & Hb' & Hh & Hnn & Hiu & Hlk & Hnd & Hst).
    exists b'. split; [assumption|]. destruct E.
    split; [lia|]. split; [auto|].
    split.
    { intros Hf. apply andb_true_iff in Hf as [Hf1 Hf2].
      apply negb_true_iff in Hf1. rewrite (Hiu Hf2). auto. }
    split; [auto|]. split; [auto|].
    intros Hf s. apply andb_true_iff in Hf as [Hf1 Hf2].
    apply negb_true_iff in Hf1.
    rewrite (Hst Hf2 s), (ce_streams0 Hf1 s), elem_of_app. tauto.
Qed.

Lemma total_net_holds_Permutation cs cs' :
  cs ≡ₚ cs' -> total_net_holds cs = total_net_holds cs'.
Proof.
  unfold total_net_holds.
  induction 1; simpl; lia.
Qed.

Lemma no_lock_call_Permutation cs cs' :
  cs ≡ₚ cs' ->
  forallb (fun c => negb (is_lock_call c)) cs
    = forallb (fun c => negb (is_lock_call c)) cs'.
Proof.
  induction 1 as [|c l l' _ IH|c c' l|l l' l'' _ IH1 _ IH2]; simpl.
  - reflexivity.
  - now rewrite IH.
  - now rewrite !andb_assoc, (andb_comm (negb (is_lock_call c'))).
  - congruence.
Qed.

Lemma converted_streams_Permutation cs cs' :
  cs ≡ₚ cs' ->
  concat (map converted_stream cs) ≡ₚ concat (map converted_stream cs').
Proof.
  induction 1 as [|c l l' _ IH|c c' l|l l' l'' _ IH1 _ IH2]; simpl.
  - reflexivity.
  - now rewrite IH.
  - rewrite !app_assoc. apply Permutation_app_tail, Permutation_app_comm.
  - now rewrite IH1.
Qed.

(** C7: over every sequence of calls on a buffer that returns,
    [usage_events_] keeps at most one entry per stream; and a
    [ConvertUsageHold] for a stream that already has an entry leaves the list
    of streams as it was, adding no second entry. *)
Theorem usage_events_one_entry_per_stream (w : World) (self : BufferPtr)
    (b : SharedDeviceBuffer) (cs : list Call) (w' : World) :
  buffers_store w !! self = Some b ->
  NoDup (map stream (usage_events_ b)) ->
  calls self cs w = Done (tt, w') ->
  NoDup (map stream (usage_events_at self w')) /\
  (forall s ev held w'',
     s ∈ map stream (usage_events_at self w') ->
     ConvertUsageHold self s ev held w' = Done (tt, w'') ->
     map stream (usage_events_at self w'')
       = map stream (usage_events_at self w')).
Proof.
  intros Hb Hnd Hrun.
  destruct (calls_buffer _ _ _ _ _ Hb Hrun)
    as (b' & Hb' & _ & _ & _ & _ & Hnd' & _).
  assert (Hat : usage_events_at self w' = usage_events_ b')
    by (unfold usage_events_at; now rewrite Hb').
  rewrite Hat. split; [auto|].
  intros s ev held w'' Hin.
  rewrite (ConvertUsageHold_eq _ _ _ _ _ _ Hb').
  destruct (in_use_ b' && (usage_holds_ b' >? 0)); [|discriminate].
  destruct (record_usage_event s ev held (usage_events_ b') w')
    as [[l w1]| |] eqn:E; [|discriminate|discriminate].
  intros [= <-]. rewrite usage_events_at_update. simpl.
  rewrite (record_usage_event_streams _ _ _ _ _ _ _ E).
  destruct (entry_for s (usage_events_ b')) eqn:Ee; [reflexivity|].
  now apply entry_for_None in Ee.
Qed.

Lemma usage_events_one_entry_per_stream_witness :
  exists w',
    calls 0%nat
      [CallAddUsageHold; CallAddUsageHold;
       CallConvertUsageHold 7%nat 2%nat false;
       CallConvertUsageHold 7%nat 1%nat true]
      (world_with_buffer (sample_buffer 0 [])) = Done (tt, w') /\
    usage_events_at 0%nat w'
      = [{| stream := 7%nat; event := 1%nat; reference_held := true |}] /\
    NoDup (map stream (usage_events_at 0%nat w')).
Proof.
  eexists. split; [vm_compute; reflexivity|]. split; [reflexivity|].
  eapply (usage_events_one_entry_per_stream
            (world_with_buffer (sample_buffer 0 [])) 0%nat
            (sample_buffer 0 [])
            [CallAddUsageHold; CallAddUsageHold;
             CallConvertUsageHold 7%nat 2%nat false;
             CallConvertUsageHold 7%nat 1%nat true]).
  - reflexivity.
  - apply NoDup_nil_2.
  - vm_compute. reflexivity.
Defined.

Lemma AddUsageHold_after_lock w self b :
  buffers_store w !! self = Some b ->
  in_use_ b = false ->
  AddUsageHold self w = Crash.
Proof. intros Hb Hu. now rewrite (AddUsageHold_eq _ _ _ Hb), Hu. Qed.

(** C1: on a buffer in use, [LockUseAndTransferUsageEvents] does not return
    while [usage_holds_] is not zero; at zero it returns the usage events
    gathered so far and leaves the buffer with [in_use_] false, after which
    [AddUsageHold] aborts and no sequence of calls turns [in_use_] back on.
    The buffer's own [usage_events_] is left in the state [std::move] leaves
    the container in, [moved_from], which the spec gives as empty.  After
    three [AddUsageHold], one [DropUsageHold] and two [ConvertUsageHold] on
    distinct streams, made in any order in which they all return on a newly
    built buffer, it returns two usage events, one per stream, and
    [usage_holds_] is zero. *)
Theorem LockUseAndTransferUsageEvents_finalizes (w : World) (self : BufferPtr)
    (b : SharedDeviceBuffer) :
  buffers_store w !! self = Some b ->
  in_use_ b = true ->
  (usage_holds_ b <> 0 -> LockUseAndTransferUsageEvents self w = Blocked) /\
  (usage_holds_ b = 0 ->
   let w' :=
     update_buffer self
       (set_usage_events (moved_from (usage_events_ b)) (set_in_use false b))
       w in
   LockUseAndTransferUsageEvents self w = Done (usage_events_ b, w') /\
   usage_events_at self w' = moved_from (usage_events_ b) /\
   usage_events_at self w' = [] /\
   AddUsageHold self w' = Crash /\
   (forall cs w'',
      calls self cs w' = Done (tt, w'') ->
      exists b'', buffers_store w'' !! self = Some b'' /\
                  in_use_ b'' = false)) /\
  (forall s1 s2 e1 e2 held1 held2 cs w1,
     usage_holds_ b = 0 ->
     usage_events_ b = [] ->
     s1 <> s2 ->
     cs ≡ₚ [CallAddUsageHold; CallAddUsageHold; CallAddUsageHold;
            CallDropUsageHold;
            CallConvertUsageHold s1 e1 held1;
            CallConvertUsageHold s2 e2 held2] ->
     calls self cs w = Done (tt, w1) ->
     exists evs w2 b2,
       LockUseAndTransferUsageEvents self w1 = Done (evs, w2) /\
       length evs = 2%nat /\
       map stream evs ≡ₚ [s1; s2] /\
       buffers_store w2 !! self = Some b2 /\
       usage_holds_ b2 = 0 /\
       in_use_ b2 = false /\
       usage_events_ b2 = moved_from evs /\
       usage_events_ b2 = []).
Proof.
  intros Hb Hu. split; [|split].
  - intros Hh. rewrite (LockUseAndTransferUsageEvents_eq _ _ _ Hb), Hu.
    now replace (usage_holds_ b =? 0) with false by (symmetry; lia).
  - intros Hh. cbv zeta.
    rewrite (LockUseAndTransferUsageEvents_eq _ _ _ Hb), Hu, Hh.
    split; [reflexivity|].
    split; [apply usage_events_at_update|].
    split; [apply usage_events_at_update|]. split.
    + apply (AddUsageHold_after_lock _ _
               (set_usage_events [] (set_in_use false b)));
        [apply lookup_insert_eq | reflexivity].
    + intros cs w'' Hrun.
      assert (Hb' : buffers_store
                      (update_buffer self
                         (set_usage_events [] (set_in_use false b)) w)
                      !! self
                    = Some (set_usage_events [] (set_in_use false b)))
        by apply lookup_insert_eq.
      destruct (calls_buffer _ _ _ _ _ Hb' Hrun)
        as (b'' & Hb'' & _ & _ & _ & Hl & _).
      exists b''. split; [assumption | now apply Hl].
  - intros s1 s2 e1 e2 held1 held2 cs w1 Hh He Hne Hperm Hrun.
    destruct (calls_buffer _ _ _ _ _ Hb Hrun)
      as (b1 & Hb1 & Hh1 & _ & Hiu & _ & Hnd & Hst).
    rewrite (total_net_holds_Permutation _ _ Hperm) in Hh1.
    rewrite (no_lock_call_Permutation _ _ Hperm) in Hiu, Hst.
    specialize (Hiu eq_refl). specialize (Hst eq_refl).
    rewrite He in Hnd, Hst. simpl in Hh1, Hnd, Hst.
    specialize (Hnd (NoDup_nil_2 (A := Stream))).
    assert (Hstreams : map stream (usage_events_ b1) ≡ₚ [s1; s2]).
    { apply NoDup_Permutation; [assumption| |].
      - apply NoDup_cons. split; [|apply NoDup_singleton].
        rewrite list_elem_of_singleton. congruence.
      - intros s. rewrite (Hst s), elem_of_nil.
        rewrite (converted_streams_Permutation _ _ Hperm). simpl.
        tauto. }
    exists (usage_events_ b1). eexists. eexists.
    split.
    { rewrite (LockUseAndTransferUsageEvents_eq _ _ _ Hb1), Hiu, Hu.
      replace (usage_holds_ b1 =? 0) with true by (symmetry; lia).
      reflexivity. }
    split.
    { rewrite <- (length_map stream).
      now rewrite (Permutation_length Hstreams). }
    split; [exact Hstreams|].
    split; [apply lookup_insert_eq|]. simpl.
    repeat split. lia.
Qed.

Lemma LockUseAndTransferUsageEvents_finalizes_witness :
  exists w1 evs w2 b2,
    calls 0%nat
      [CallAddUsageHold; CallAddUsageHold; CallAddUsageHold;
       CallConvertUsageHold 7%nat 3%nat true;
       CallDropUsageHold;
       CallConvertUsageHold 8%nat 3%nat false]
      (world_with_buffer (sample_buffer 0 [])) = Done (tt, w1) /\
    LockUseAndTransferUsageEvents 0%nat w1 = Done (evs, w2) /\
    length evs = 2%nat /\
    map stream evs ≡ₚ [7%nat; 8%nat] /\
    buffers_store w2 !! 0%nat = Some b2 /\
    usage_holds_ b2 = 0 /\
    in_use_ b2 = false /\
    usage_events_ b2 = moved_from evs /\
    usage_events_ b2 = [].
Proof.
  eexists.
  assert (Hrun :
    calls 0%nat
      [CallAddUsageHold; CallAddUsageHold; CallAddUsageHold;
       CallConvertUsageHold 7%nat 3%nat true;
       CallDropUsageHold;
       CallConvertUsageHold 8%nat 3%nat false]
      (world_with_buffer (sample_buffer 0 [])) = Done (tt, _))
    by (vm_compute; reflexivity).
  destruct (LockUseAndTransferUsageEvents_finalizes
              (world_with_buffer (sample_buffer 0 [])) 0%nat
              (sample_buffer 0 []) eq_refl eq_refl) as (_ & _ & Hscenario).
  destruct (Hscenario 7%nat 8%nat 3%nat 3%nat true false _ _
              eq_refl eq_refl ltac:(discriminate)
              ltac:(do 3 apply perm_skip; apply perm_swap)
              Hrun)
    as (evs & w2 & b2 & H).
  exists evs, w2, b2. split; [exact Hrun | exact H].
Defined.

(** ** ScopedUsage *)

Lemma set_usage_holds_same b : set_usage_holds (usage_holds_ b) b = b.
Proof. now destruct b. Qed.

Lemma set_usage_holds_twice n m b :
  set_usage_holds n (set_usage_holds m b) = set_usage_holds n b.
Proof. reflexivity. Qed.

Lemma update_buffer_twice p b1 b2 w :
  update_buffer p b2 (update_buffer p b1 w) = update_buffer p b2 w.
Proof.
  unfold update_buffer. simpl. now rewrite insert_insert_eq.
Qed.

Lemma update_buffer_same p b w :
  buffers_store w !! p = Some b -> update_buffer p b w = w.
Proof.
  intros H. unfold update_buffer. rewrite (insert_id _ _ _ H).
  apply World_eta.
Qed.

Lemma ConvertUsageHold_after_hold w p b l :
  update_buffer p
    (set_usage_events l
       (set_usage_holds (usage_holds_ b + 1 - 1)
          (set_usage_holds (usage_holds_ b + 1) b)))
    (update_buffer p (set_usage_holds (usage_holds_ b + 1) b) w)
  = update_buffer p (set_usage_events l b) w.
Proof.
  rewrite update_buffer_twice, set_usage_holds_twice.
  replace (usage_holds_ b + 1 - 1) with (usage_holds_ b) by lia.
  now rewrite set_usage_holds_same.
Qed.

(** C8: [Acquire] of a buffer on an empty guard makes one [AddUsageHold] on
    it and keeps the reference; [Acquire] of a null buffer leaves the guard
    empty and the program state untouched; destroying a guard that still
    holds its buffer makes one [DropUsageHold], which undoes the hold taken.
    [Release] hands out the buffer and [Convert] makes one
    [ConvertUsageHold] on it; [Convert] returns, with the hold turned into
    the stream's usage event, whenever the stream has no entry yet or the
    events to compare are recorded; after either the guard is empty and its
    destruction does nothing. *)
Theorem ScopedUsage_lifecycle (w : World) (p : BufferPtr)
    (b : SharedDeviceBuffer) :
  buffers_store w !! p = Some b ->
  in_use_ b = true ->
  0 <= usage_holds_ b ->
  let held := {| ScopedUsage.parent_ := Some p |} in
  let w1 := update_buffer p (set_usage_holds (usage_holds_ b + 1) b) w in
  AddUsageHold p w = Done (tt, w1) /\
  ScopedUsage.Acquire ScopedUsage.empty (Some p) w = Done (held, w1) /\
  ScopedUsage.Acquire ScopedUsage.empty None w = Done (ScopedUsage.empty, w) /\
  DropUsageHold p w1 = Done (tt, w) /\
  ScopedUsage.destructor held w1 = Done (tt, w) /\
  ScopedUsage.Release held w1 = Done ((Some p, ScopedUsage.empty), w1) /\
  (forall w2, ScopedUsage.destructor ScopedUsage.empty w2 = Done (tt, w2)) /\
  (forall s ev h g w2,
     ScopedUsage.Convert held s ev h w1 = Done (g, w2) ->
     g = ScopedUsage.empty /\
     ConvertUsageHold p s ev h w1 = Done (tt, w2) /\
     ScopedUsage.destructor g w2 = Done (tt, w2)) /\
  (forall q, ScopedUsage.Acquire held q w1 = Crash) /\
  (forall s ev h,
     ScopedUsage.Convert held s ev h w1 =
       match ConvertUsageHold p s ev h w1 with
       | Done (_, w2) => Done (ScopedUsage.empty, w2)
       | Blocked => Blocked
       | Crash => Crash
       end) /\
  (forall s ev h,
     entry_for s (usage_events_ b) = None ->
     ScopedUsage.Convert held s ev h w1 =
       Done (ScopedUsage.empty,
             update_buffer p
               (set_usage_events
                  (usage_events_ b ++
                     [{| stream := s; event := ev; reference_held := h |}])
                  b) w)) /\
  (forall s ev h existing n_old n_new,
     entry_for s (usage_events_ b) = Some existing ->
     recorded_sequence_number w (event existing) = Some n_old ->
     recorded_sequence_number w ev = Some n_new ->
     ScopedUsage.Convert held s ev h w1 =
       Done (ScopedUsage.empty,
             update_buffer p
               (set_usage_events
                  (if n_old <? n_new
                   then supersede s ev h (usage_events_ b)
                   else usage_events_ b)
                  b) w)).
Proof.
  intros Hb Hu Hh held w1.
  assert (Hadd : AddUsageHold p w = Done (tt, w1))
    by now rewrite (AddUsageHold_eq _ _ _ Hb), Hu.
  assert (Hdrop : DropUsageHold p w1 = Done (tt, w)).
  { rewrite (DropUsageHold_eq w1 p (set_usage_holds (usage_holds_ b + 1) b))
      by apply lookup_insert_eq.
    simpl. rewrite Hu.
    replace (usage_holds_ b + 1 >? 0) with true by (symmetry; lia). simpl.
    unfold w1. rewrite update_buffer_twice, set_usage_holds_twice.
    replace (usage_holds_ b + 1 - 1) with (usage_holds_ b) by lia.
    rewrite set_usage_holds_same. now rewrite (update_buffer_same _ _ _ Hb). }
  assert (Hconv : forall s ev h,
    ScopedUsage.Convert held s ev h w1 =
      match ConvertUsageHold p s ev h w1 with
      | Done (_, w2) => Done (ScopedUsage.empty, w2)
      | Blocked => Blocked
      | Crash => Crash
      end).
  { intros s ev h. unfold ScopedUsage.Convert. simpl.
    unfold bind at 1. simpl. unfold bind, ret.
    now destruct (ConvertUsageHold p s ev h w1) as [[[] w2]| |]. }
  assert (Hb1 : buffers_store w1 !! p
                = Some (set_usage_holds (usage_holds_ b + 1) b))
    by apply lookup_insert_eq.
  split; [exact Hadd|]. split.
  { unfold ScopedUsage.Acquire. simpl. unfold bind at 1. simpl.
    now rewrite (bind_Done _ _ _ _ _ Hadd). }
  split; [reflexivity|]. split; [exact Hdrop|]. split; [exact Hdrop|].
  split; [reflexivity|]. split; [reflexivity|]. split.
  { intros s ev h g w2. unfold ScopedUsage.Convert. simpl.
    unfold bind at 1. simpl. intros H.
    apply bind_inv in H as ([] & w2' & Hc & H).
    unfold ret in H. injection H as <- <-. auto. }
  split; [reflexivity|]. split; [exact Hconv|]. split.
  - intros s ev h He. rewrite Hconv.
    rewrite (ConvertUsageHold_absent w1 p
               (set_usage_holds (usage_holds_ b + 1) b) s ev h Hb1 Hu
               ltac:(simpl; lia) He).
    simpl. unfold w1. now rewrite ConvertUsageHold_after_hold.
  - intros s ev h existing n_old n_new He Hold Hnew. rewrite Hconv.
    rewrite (ConvertUsageHold_present w1 p
               (set_usage_holds (usage_holds_ b + 1) b) s ev h existing
               n_old n_new Hb1 Hu ltac:(simpl; lia) He Hold Hnew).
    simpl. unfold w1. now rewrite ConvertUsageHold_after_hold.
Qed.

Lemma ScopedUsage_lifecycle_witness :
  exists w1 w2,
    ScopedUsage.Acquire ScopedUsage.empty (Some 0%nat)
      (world_with_buffer (sample_buffer 0 []))
      = Done ({| ScopedUsage.parent_ := Some 0%nat |}, w1) /\
    (usage_holds_ <$> buffers_store w1 !! 0%nat) = Some 1 /\
    ScopedUsage.destructor {| ScopedUsage.parent_ := Some 0%nat |} w1
      = Done (tt, world_with_buffer (sample_buffer 0 [])) /\
    ScopedUsage.Convert {| ScopedUsage.parent_ := Some 0%nat |}
      7%nat 1%nat true w1 = Done (ScopedUsage.empty, w2) /\
    usage_events_at 0%nat w2
      = [{| stream := 7%nat; event := 1%nat; reference_held := true |}] /\
    (usage_holds_ <$> buffers_store w2 !! 0%nat) = Some 0 /\
    ScopedUsage.destructor ScopedUsage.empty w2 = Done (tt, w2).
Proof.
  destruct (ScopedUsage_lifecycle (world_with_buffer (sample_buffer 0 []))
              0%nat (sample_buffer 0 [])
              eq_refl eq_refl ltac:(simpl; lia))
    as (_ & Hacq & _ & _ & Hdes & _ & Hempty & _ & _ & _ & Hnew & _).
  eexists. eexists. split; [exact Hacq|]. split; [reflexivity|].
  split; [exact Hdes|].
  split; [exact (Hnew 7%nat 1%nat true eq_refl)|].
  split; [reflexivity|]. split; [reflexivity | apply Hempty].
Defined.

(** ** Destruction *)

(** The effects of the deallocation loop when it starts after [past]. *)
Lemma deallocate_each_eq Ds a o mems : forall w,
  exists trace,
    deallocate_each Ds a o mems w
      = Done (tt, {| events := events w;
                     buffers_store := buffers_store w;
                     effects := effects w ++ trace |}) /\
    deallocated trace = map (fun m => (a, o, m)) mems /\
    callbacks_invoked trace = [] /\
    (forall st rest, trace <> LogError st :: rest) /\
    (forall pre a' o' m post,
       trace = pre ++ Deallocate a' o' m :: post ->
       let st := Ds (effects w ++ pre) a' o' m in
       if ok st then forall st' post', post <> LogError st' :: post'
       else exists post', post = LogError st :: post').
Proof.
  induction mems as [|m0 mems IH]; intros w.
  - exists []. simpl. unfold ret. rewrite app_nil_r, World_eta.
    repeat split; try discriminate.
    intros [|? ?] ? ? ? ?; discriminate.
  - simpl. unfold bind at 1. unfold call_Deallocate.
    set (st0 := Ds (effects w) a o m0).
    set (step := Deallocate a o m0 :: if ok st0 then [] else [LogError st0]).
    set (w1 := {| events := events w; buffers_store := buffers_store w;
                  effects := effects w ++ step |}).
    destruct (IH w1) as (trace & Hrun & Hd & Hc & Hhead & Hlog).
    exists (step ++ trace).
    assert (Hstep :
      bind (if ok st0 then ret tt else emit (LogError st0))
           (fun _ => deallocate_each Ds a o mems)
           {| events := events w; buffers_store := buffers_store w;
              effects := effects w ++ [Deallocate a o m0] |}
      = deallocate_each Ds a o mems w1).
    { unfold bind, w1, step. destruct (ok st0); unfold ret, emit; simpl;
        [reflexivity|]. now rewrite <- app_assoc. }
    split.
    { rewrite Hstep, Hrun. unfold w1. simpl. now rewrite <- app_assoc. }
    split.
    { unfold deallocated in *. rewrite flat_map_app, Hd. unfold step.
      now destruct (ok st0). }
    split.
    { unfold callbacks_invoked in *. rewrite flat_map_app, Hc. unfold step.
      now destruct (ok st0). }
    split; [discriminate|].
    intros pre a' o' m post Heq.
    destruct pre as [|e pre].
    + simpl in Heq. injection Heq as <- <- <- Hpost.
      rewrite app_nil_r. fold st0. destruct (ok st0) eqn:Hok.
      * simpl in Hpost. subst post. intros st' post'. apply Hhead.
      * simpl in Hpost. now exists trace.
    + simpl in Heq. injection Heq as <- Heq.
      destruct (ok st0) eqn:Hok; simpl in Heq.
      * specialize (Hlog pre a' o' m post Heq). unfold w1, step in Hlog.
        simpl in Hlog. now rewrite <- app_assoc in Hlog.
      * destruct pre as [|e pre]; [discriminate|].
        simpl in Heq. injection Heq as <- Heq.
        specialize (Hlog pre a' o' m post Heq). unfold w1, step in Hlog.
        simpl in Hlog. now rewrite <- app_assoc in Hlog.
Qed.

(** C5: destroying a buffer whose [external_references_] is not zero fails
    the [CHECK_EQ] and aborts.  Otherwise the destructor returns, whatever
    the allocator answers: with an allocator it deallocates every region of
    [device_memory_], in order, on the buffer's device; each deallocation
    that does not answer ok is followed by one log entry carrying the status
    and the loop goes on; without an allocator nothing is deallocated.  The
    delete callback, when there is one, is invoked once, after the
    deallocations. *)
Theorem destructor_contract
    (Ds : list Effect -> Allocator -> Z -> DeviceMemoryBase -> Status)
    (w : World) (self : BufferPtr) (b : SharedDeviceBuffer) :
  buffers_store w !! self = Some b ->
  (external_references_ b <> 0 ->
   SharedDeviceBuffer_destructor Ds self w = Crash) /\
  (external_references_ b = 0 ->
   exists released,
     SharedDeviceBuffer_destructor Ds self w =
       Done (tt, {| events := events w;
                    buffers_store := delete self (buffers_store w);
                    effects :=
                      effects w ++ released ++
                      match on_delete_callback_ b with
                      | Some cb => [OnDelete cb]
                      | None => []
                      end |}) /\
     deallocated released =
       match allocator_ b with
       | Some a => map (fun m => (a, device_ordinal_ b, m)) (device_memory_ b)
       | None => []
       end /\
     callbacks_invoked released = [] /\
     (forall pre a' o' m post,
        released = pre ++ Deallocate a' o' m :: post ->
        let st := Ds (effects w ++ pre) a' o' m in
        if ok st then forall st' post', post <> LogError st' :: post'
        else exists post', post = LogError st :: post')).
Proof.
  intros Hb. unfold SharedDeviceBuffer_destructor.
  rewrite (bind_Done _ _ _ _ _ (get_buffer_eq _ _ _ Hb)).
  split.
  - intros Hne. apply bind_Crash. unfold CHECK.
    now replace (external_references_ b =? 0) with false by (symmetry; lia).
  - intros ->.
    rewrite (bind_Done _ _ _ tt w) by reflexivity.
    assert (Hloop : exists released,
      match allocator_ b with
      | Some a => deallocate_each Ds a (device_ordinal_ b) (device_memory_ b)
      | None => ret tt
      end w
      = Done (tt, {| events := events w; buffers_store := buffers_store w;
                     effects := effects w ++ released |}) /\
      deallocated released =
        match allocator_ b with
        | Some a => map (fun m => (a, device_ordinal_ b, m)) (device_memory_ b)
        | None => []
        end /\
      callbacks_invoked released = [] /\
      (forall pre a' o' m post,
         released = pre ++ Deallocate a' o' m :: post ->
         let st := Ds (effects w ++ pre) a' o' m in
         if ok st then forall st' post', post <> LogError st' :: post'
         else exists post', post = LogError st :: post')).
    { destruct (allocator_ b) as [a|].
      - destruct (deallocate_each_eq Ds a (device_ordinal_ b)
                    (device_memory_ b) w)
          as (trace & Hrun & Hd & Hc & _ & Hlog).
        now exists trace.
      - exists []. unfold ret. rewrite app_nil_r, World_eta.
        repeat split. intros [|? ?] ? ? ? ?; discriminate. }
    destruct Hloop as (released & Hrun & Hrest).
    exists released. split; [|exact Hrest].
    rewrite (bind_Done _ _ _ _ _ Hrun).
    unfold bind, emit, ret, release_buffer.
    destruct (on_delete_callback_ b); simpl.
    + now rewrite <- app_assoc.
    + now rewrite app_nil_r.
Qed.

Lemma destructor_contract_witness :
  exists w',
    SharedDeviceBuffer_destructor failing_at_4096 0%nat
      (world_with_buffer (sample_buffer 0 [])) = Done (tt, w') /\
    buffers_store w' !! 0%nat = None /\
    effects w' = [Deallocate 1%nat 0 (region 4096 64); LogError (Error 9);
                  Deallocate 1%nat 0 (region 8192 32); OnDelete 3%nat].
Proof.
  destruct (destructor_contract failing_at_4096
              (world_with_buffer (sample_buffer 0 [])) 0%nat
              (sample_buffer 0 []) eq_refl) as [_ H].
  destruct (H eq_refl) as (released & Hrun & _).
  eexists. split; [exact Hrun|].
  split; [apply lookup_delete_eq|].
  pose proof (f_equal (fun r => match r with
                                | Done (_, w0) => effects w0
                                | _ => []
                                end) Hrun) as Heff.
  vm_compute in Heff. symmetry. exact Heff.
Defined.

(** ** Construction from and export to shaped buffers *)

Lemma insert_middle {A} (pre post : list A) (x y : A) :
  <[length pre := y]> (pre ++ x :: post) = pre ++ y :: post.
Proof.
  rewrite insert_app_r_alt by lia. now rewrite Nat.sub_diag.
Qed.

Lemma lookup_middle {A} (pre post : list A) (x : A) :
  (pre ++ x :: post) !! length pre = Some x.
Proof. apply list_lookup_middle. reflexivity. Qed.

Lemma extract_regions_eq w : forall subshapes mid pre post out,
  length mid = length subshapes ->
  extract_regions subshapes (length pre) (pre ++ mid ++ post) out w
    = Done ((length pre + length mid,
             pre ++ map (fun n => (fst n, DeviceMemoryBase_null)) mid ++ post,
             out ++ map snd mid)%nat, w).
Proof.
  induction subshapes as [|n subshapes IH]; intros mid pre post out Hlen.
  - destruct mid; [|discriminate]. simpl.
    now rewrite Nat.add_0_r, app_nil_r.
  - destruct mid as [|[index mem] mid]; [discriminate|].
    simpl in Hlen. injection Hlen as Hlen.
    cbn [extract_regions app]. rewrite lookup_middle, insert_middle.
    specialize (IH mid (pre ++ [(index, DeviceMemoryBase_null)]) post
                  (out ++ [mem]) Hlen).
    rewrite length_app in IH. simpl in IH.
    rewrite <- !app_assoc in IH. simpl in IH.
    replace (S (length pre)) with (length pre + 1)%nat by lia.
    rewrite IH. simpl.
    now replace (length pre + 1 + length mid)%nat
      with (length pre + S (length mid))%nat by lia.
Qed.

Lemma populate_regions_eq w : forall device_memory mid pre post,
  length mid = length device_memory ->
  populate_regions device_memory (length pre) (pre ++ mid ++ post) w
    = Done ((length pre + length mid,
             pre ++ zip (map fst mid) device_memory ++ post)%nat, w).
Proof.
  induction device_memory as [|buf device_memory IH];
    intros mid pre post Hlen.
  - destruct mid; [|discriminate]. simpl. now rewrite Nat.add_0_r.
  - destruct mid as [|[index mem] mid]; [discriminate|].
    simpl in Hlen. injection Hlen as Hlen.
    cbn [populate_regions app]. rewrite lookup_middle, insert_middle.
    specialize (IH mid (pre ++ [(index, buf)]) post Hlen).
    rewrite length_app in IH. simpl in IH.
    rewrite <- !app_assoc in IH. simpl in IH.
    replace (S (length pre)) with (length pre + 1)%nat by lia.
    rewrite IH. simpl.
    now replace (length pre + 1 + length mid)%nat
      with (length pre + S (length mid))%nat by lia.
Qed.

(** The loop of [AsShapedBuffer] touches nothing but its own tree. *)
Lemma populate_regions_world : forall device_memory iterator tree w r w',
  populate_regions device_memory iterator tree w = Done (r, w') -> w' = w.
Proof.
  induction device_memory as [|buf device_memory IH];
    intros iterator tree w r w'; simpl.
  - unfold ret. now intros [= _ <-].
  - destruct (tree !! iterator) as [[index mem]|]; [apply IH|].
    unfold bind, CHECK. discriminate.
Qed.

Lemma zip_fst_snd {A B} (l : list (A * B)) : zip (map fst l) (map snd l) = l.
Proof.
  induction l as [|[a b] l IH]; simpl; [reflexivity | now rewrite IH].
Qed.

Lemma ShapeTree_new_indices s :
  map fst (ShapeTree_new s) = map snd (ForEachSubshape s []).
Proof.
  unfold ShapeTree_new. rewrite map_map. reflexivity.
Qed.

Lemma AsShapedBuffer_eq w self b host device pl :
  buffers_store w !! self = Some b ->
  length (device_memory_ b) = length (ForEachSubshape device []) ->
  AsShapedBuffer self host device pl w =
    Done ({| on_host_shape := host;
             on_device_shape := device;
             platform := pl;
             device_ordinal := device_ordinal_ b;
             buffers := zip (map snd (ForEachSubshape device []))
                            (device_memory_ b) |}, w).
Proof.
  intros Hb Hlen. unfold AsShapedBuffer.
  rewrite (bind_Done _ _ _ _ _ (get_buffer_eq _ _ _ Hb)).
  cbn [buffers ShapedBuffer_new].
  assert (Hl : length (ShapeTree_new device) = length (device_memory_ b)).
  { unfold ShapeTree_new. now rewrite length_map. }
  pose proof (populate_regions_eq w (device_memory_ b) (ShapeTree_new device)
                [] [] Hl) as Hrun.
  simpl in Hrun. rewrite app_nil_r in Hrun.
  rewrite (bind_Done _ _ _ _ _ Hrun).
  rewrite app_nil_r, ShapeTree_new_indices.
  unfold bind, CHECK, ret.
  rewrite length_zip, length_map, <- Hlen, Nat.min_id, Hl, Hlen.
  rewrite Nat.eqb_refl. reflexivity.
Qed.

Lemma well_formed_length sb :
  well_formed sb ->
  length (buffers sb) = length (ForEachSubshape (on_device_shape sb) []).
Proof.
  unfold well_formed. intros H.
  apply (f_equal (@length ShapeIndex)) in H. now rewrite !length_map in H.
Qed.

Lemma FromScopedShapedBuffer_eq w src definition_events :
  well_formed (shaped src) ->
  FromScopedShapedBuffer src definition_events w =
    Done ((fresh (dom (buffers_store w)),
           {| shaped :=
                set_buffers
                  (map (fun n => (fst n, DeviceMemoryBase_null))
                       (buffers (shaped src)))
                  (shaped src);
              memory_allocator := memory_allocator src |}),
          update_buffer (fresh (dom (buffers_store w)))
            (SharedDeviceBuffer_new (memory_allocator src)
               (device_ordinal (shaped src))
               (regions (buffers (shaped src)))
               definition_events None) w).
Proof.
  intros Hwf. apply well_formed_length in Hwf.
  unfold FromScopedShapedBuffer. cbv zeta.
  pose proof (extract_regions_eq w
                (ForEachSubshape (on_device_shape (shaped src)) [])
                (buffers (shaped src)) [] [] [] Hwf) as Hrun.
  simpl in Hrun. rewrite app_nil_r in Hrun.
  rewrite (bind_Done _ _ _ _ _ Hrun).
  rewrite app_nil_r, length_map.
  unfold bind, CHECK, make_shared, ret. rewrite Nat.eqb_refl.
  reflexivity.
Qed.

(** C3: a well-formed shaped source is turned into a buffer holding the
    source's regions in slot order, the source's slots being cleared; the
    export of that buffer with the source's device shape returns, and its
    tree is the source's tree as it was before the extraction, slot for slot.
    With the source's host shape and platform the whole shaped buffer is
    reproduced. *)
Theorem FromScopedShapedBuffer_AsShapedBuffer_round_trip (w : World)
    (src : ScopedShapedBuffer) (definition_events : list EventPtr)
    (host : Shape) (pl : Platform) :
  well_formed (shaped src) ->
  exists p cleared w' out,
    FromScopedShapedBuffer src definition_events w = Done ((p, cleared), w') /\
    device_memory_ <$> buffers_store w' !! p
      = Some (regions (buffers (shaped src))) /\
    regions (buffers (shaped cleared))
      = map (fun _ => DeviceMemoryBase_null) (buffers (shaped src)) /\
    AsShapedBuffer p host (on_device_shape (shaped src)) pl w'
      = Done (out, w') /\
    regions (buffers out) = regions (buffers (shaped src)) /\
    buffers out = buffers (shaped src) /\
    (host = on_host_shape (shaped src) ->
     pl = platform (shaped src) ->
     out = shaped src).
Proof.
  intros Hwf. pose proof (well_formed_length _ Hwf) as Hlen.
  set (b := SharedDeviceBuffer_new (memory_allocator src)
              (device_ordinal (shaped src))
              (regions (buffers (shaped src))) definition_events None).
  set (p := fresh (dom (buffers_store w))).
  assert (Hb : buffers_store (update_buffer p b w) !! p = Some b)
    by apply lookup_insert_eq.
  assert (Hout :
    zip (map snd (ForEachSubshape (on_device_shape (shaped src)) []))
        (device_memory_ b) = buffers (shaped src)).
  { unfold well_formed in Hwf. rewrite <- Hwf. apply zip_fst_snd. }
  eexists p, _, (update_buffer p b w), _.
  split; [now apply FromScopedShapedBuffer_eq|].
  split; [exact (f_equal (fmap device_memory_) Hb)|].
  split; [unfold regions; simpl; now rewrite map_map|].
  split.
  { apply (AsShapedBuffer_eq _ _ b); [exact Hb|].
    simpl. unfold regions. now rewrite length_map. }
  simpl. simpl in Hout. rewrite Hout.
  split; [reflexivity|]. split; [reflexivity|].
  intros -> ->. now destruct (shaped src).
Qed.

Lemma FromScopedShapedBuffer_AsShapedBuffer_round_trip_witness :
  exists p cleared w' out,
    FromScopedShapedBuffer sample_source [1%nat] no_objects
      = Done ((p, cleared), w') /\
    regions (buffers (shaped cleared))
      = [DeviceMemoryBase_null; DeviceMemoryBase_null; DeviceMemoryBase_null] /\
    AsShapedBuffer p pair_shape pair_shape 2%nat w' = Done (out, w') /\
    regions (buffers out)
      = [region 256 16; region 4096 64; region 8192 32] /\
    out = shaped sample_source.
Proof.
  destruct (FromScopedShapedBuffer_AsShapedBuffer_round_trip no_objects
              sample_source [1%nat] pair_shape 2%nat eq_refl)
    as (p & cleared & w' & out & Hfrom & _ & Hcl & Has & Hreg & _ & Hout).
  exists p, cleared, w', out.
  split; [exact Hfrom|]. split; [exact Hcl|]. split; [exact Has|].
  split; [exact Hreg | now apply Hout].
Defined.

Lemma populate_regions_inv : forall device_memory iterator tree w r w',
  populate_regions device_memory iterator tree w = Done (r, w') ->
  fst r = (iterator + length device_memory)%nat /\
  length (snd r) = length tree.
Proof.
  induction device_memory as [|buf device_memory IH];
    intros iterator tree w r w'; simpl.
  - unfold ret. intros [= <- _]. simpl. split; [lia | reflexivity].
  - destruct (tree !! iterator) as [[index mem]|].
    + intros H. apply IH in H as [-> ->].
      rewrite length_insert. split; [lia | reflexivity].
    + unfold bind, CHECK. discriminate.
Qed.

Lemma AsShapedBuffer_inv_length w self b host device pl out w' :
  buffers_store w !! self = Some b ->
  AsShapedBuffer self host device pl w = Done (out, w') ->
  length (device_memory_ b) = length (ForEachSubshape device []).
Proof.
  intros Hb Hrun. unfold AsShapedBuffer in Hrun.
  rewrite (bind_Done _ _ _ _ _ (get_buffer_eq _ _ _ Hb)) in Hrun.
  apply bind_inv in Hrun as ([iterator tree] & w2 & Hloop & Hrun).
  apply populate_regions_inv in Hloop as [Hit Hlen]. simpl in Hit, Hlen.
  apply bind_inv in Hrun as ([] & w3 & Hcheck & _).
  apply CHECK_inv in Hcheck as [Hcheck _]. apply Nat.eqb_eq in Hcheck.
  unfold ShapeTree_new in Hlen. rewrite length_map in Hlen. lia.
Qed.

(** C10: an export that returns leaves the whole program state as it was,
    so the buffer it exports from keeps its regions, definition events,
    holds, external references, usage events and in-use flag; the export
    reads only the regions and the device ordinal; and any number of exports
    in a row return the same shaped buffer. *)
Theorem AsShapedBuffer_frame (w : World) (self : BufferPtr)
    (host device : Shape) (pl : Platform) (out : ShapedBuffer) (w' : World) :
  AsShapedBuffer self host device pl w = Done (out, w') ->
  w' = w /\
  buffers_store w' !! self = buffers_store w !! self /\
  (forall n,
     AsShapedBuffer_times n self host device pl w = Done (repeat out n, w)) /\
  (forall b,
     buffers_store w !! self = Some b ->
     regions (buffers out) = device_memory_ b /\
     device_ordinal out = device_ordinal_ b).
Proof.
  intros Hrun.
  assert (Hw : w' = w).
  { unfold AsShapedBuffer in Hrun.
    apply bind_inv in Hrun as (b & w1 & Hget & Hrun).
    apply get_buffer_inv in Hget as [_ ->].
    apply bind_inv in Hrun as ([iterator tree] & w2 & Hloop & Hrun).
    apply populate_regions_world in Hloop. subst w2.
    apply bind_inv in Hrun as ([] & w3 & Hcheck & Hrun).
    apply CHECK_inv in Hcheck as [_ [= <-]].
    unfold ret in Hrun. now injection Hrun as _ <-. }
  subst w'. split; [reflexivity|]. split; [reflexivity|]. split.
  - induction n as [|n IH]; [reflexivity|]. simpl.
    rewrite (bind_Done _ _ _ _ _ Hrun).
    now rewrite (bind_Done _ _ _ _ _ IH).
  - intros b Hb.
    pose proof (AsShapedBuffer_inv_length _ _ _ _ _ _ _ _ Hb Hrun) as Hlen.
    rewrite (AsShapedBuffer_eq w self b host device pl Hb Hlen) in Hrun.
    injection Hrun as <-. simpl. split; [|reflexivity].
    unfold regions. rewrite snd_zip; [reflexivity|].
    rewrite length_map. lia.
Qed.

Lemma AsShapedBuffer_frame_witness :
  exists out,
    AsShapedBuffer 0%nat boxed_shape boxed_shape 2%nat
      (world_with_buffer (sample_buffer 1 []))
      = Done (out, world_with_buffer (sample_buffer 1 [])) /\
    regions (buffers out) = [region 4096 64; region 8192 32] /\
    AsShapedBuffer_times 3 0%nat boxed_shape boxed_shape 2%nat
      (world_with_buffer (sample_buffer 1 []))
      = Done ([out; out; out], world_with_buffer (sample_buffer 1 [])).
Proof.
  eexists.
  assert (Hrun :
    AsShapedBuffer 0%nat boxed_shape boxed_shape 2%nat
      (world_with_buffer (sample_buffer 1 []))
      = Done (_, world_with_buffer (sample_buffer 1 [])))
    by (vm_compute; reflexivity).
  split; [exact Hrun|]. split; [reflexivity|].
  exact (proj1 (proj2 (proj2
           (AsShapedBuffer_frame _ _ _ _ _ _ _ Hrun))) 3%nat).
Defined.


(** * Further properties of the code *)

(** ** Definition events over sequences of calls *)



Lemma SetDefinitionEvent_eq q h s w e0 :
  events w !! q = Some e0 ->
  SetDefinitionEvent q h s w =
    if negb (EventHasBeenRecorded e0) && is_empty (streams_defined_on_ e0)
    then Done (tt, update_event q
                     {| event_ := h;
                        streams_defined_on_ := streams_defined_on_ e0 ++ [s] |}
                     w)
    else Crash.
Proof.
  intros H. unfold SetDefinitionEvent.
  rewrite (bind_Done _ _ _ _ _ (get_event_eq _ _ _ H)).
  unfold bind, CHECK, put_event.
  now destruct (negb (EventHasBeenRecorded e0)),
    (is_empty (streams_defined_on_ e0)).
Qed.








Lemma DefinedOn_eq w p e s :
  events w !! p = Some e ->
  DefinedOn p s w =
    if EventHasBeenRecorded e
    then Done (found s (streams_defined_on_ e), w)
    else Blocked.
Proof.
  intros H. unfold DefinedOn.
  rewrite (bind_Done _ _ _ _ _ (get_event_eq _ _ _ H)).
  unfold bind, Await, ret. now destruct (EventHasBeenRecorded e).
Qed.

Lemma found_push s s' l :
  found s' (l ++ [s]) = found s' l || Nat.eqb s' s.
Proof. rewrite found_app. simpl. now rewrite orb_false_r. Qed.

(** X2: on an event whose record is set, [DefinedOn] answers whether the
    stream is among the streams the event is defined on and changes nothing;
    after [WaitForEventOnStream] for a stream it answers true for that
    stream, and what it answers for every other stream is as before. *)
Theorem DefinedOn_after_WaitForEventOnStream (w : World) (p : EventPtr)
    (e : BufferDefinitionEvent) (s : Stream) :
  events w !! p = Some e ->
  EventHasBeenRecorded e = true ->
  DefinedOn p s w = Done (found s (streams_defined_on_ e), w) /\
  exists w1,
    WaitForEventOnStream p s w = Done (tt, w1) /\
    DefinedOn p s w1 = Done (true, w1) /\
    (forall s', s' <> s ->
       DefinedOn p s' w1 = Done (found s' (streams_defined_on_ e), w1)).
Proof.
  intros He Hrec. split; [now rewrite (DefinedOn_eq _ _ _ _ He), Hrec|].
  rewrite (WaitForEventOnStream_eq _ _ _ _ He), Hrec.
  destruct (found s (streams_defined_on_ e)) eqn:Hf.
  - exists w. split; [reflexivity|].
    split; [now rewrite (DefinedOn_eq _ _ _ _ He), Hrec, Hf|].
    intros s' _. now rewrite (DefinedOn_eq _ _ _ _ He), Hrec.
  - eexists. split; [reflexivity|]. split.
    + erewrite DefinedOn_eq by (simpl; apply lookup_insert_eq).
      unfold EventHasBeenRecorded in *. simpl. rewrite Hrec, found_push.
      now rewrite Nat.eqb_refl, orb_true_r.
    + intros s' Hne.
      erewrite DefinedOn_eq by (simpl; apply lookup_insert_eq).
      unfold EventHasBeenRecorded in *. simpl. rewrite Hrec, found_push.
      apply Nat.eqb_neq in Hne. now rewrite Hne, orb_false_r.
Qed.

Lemma DefinedOn_after_WaitForEventOnStream_witness :
  DefinedOn 0%nat 9%nat world_set_event = Done (false, world_set_event) /\
  exists w1,
    WaitForEventOnStream 0%nat 9%nat world_set_event = Done (tt, w1) /\
    DefinedOn 0%nat 9%nat w1 = Done (true, w1) /\
    DefinedOn 0%nat 7%nat w1 = Done (true, w1) /\
    DefinedOn 0%nat 8%nat w1 = Done (false, w1).
Proof.
  destruct (DefinedOn_after_WaitForEventOnStream world_set_event 0%nat
              (recorded_event 40 5 7) 9%nat eq_refl eq_refl)
    as (Hbefore & w1 & Hwait & Hself & Hother).
  split; [exact Hbefore|]. exists w1.
  split; [exact Hwait|]. split; [exact Hself|].
  split; [apply (Hother 7%nat) | apply (Hother 8%nat)]; discriminate.
Defined.

(** X3: while an event has no record, [WaitForEventOnStream] and [DefinedOn]
    park.  [SetDefinitionEvent] with a handle that holds a marker ends that:
    it returns, after it [DefinedOn] answers true for the recording stream
    and false for every other, [sequence_number] returns the handle's
    number, and a wait on the recording stream issues nothing. *)
Theorem SetDefinitionEvent_publishes (w : World) (p : EventPtr)
    (e : BufferDefinitionEvent) (h : Handle) (s : Stream) :
  events w !! p = Some e ->
  EventHasBeenRecorded e = false ->
  streams_defined_on_ e = [] ->
  h_event h <> None ->
  (forall s', WaitForEventOnStream p s' w = Blocked) /\
  (forall s', DefinedOn p s' w = Blocked) /\
  exists w1,
    SetDefinitionEvent p h s w = Done (tt, w1) /\
    buffers_store w1 = buffers_store w /\
    effects w1 = effects w /\
    (forall s', DefinedOn p s' w1 = Done (Nat.eqb s' s, w1)) /\
    sequence_number p w1 = Done (h_sequence_number h, w1) /\
    WaitForEventOnStream p s w1 = Done (tt, w1).
Proof.
  intros He Hrec Hst Hh.
  split; [intros s'; now rewrite (WaitForEventOnStream_eq _ _ _ _ He), Hrec|].
  split; [intros s'; now rewrite (DefinedOn_eq _ _ _ _ He), Hrec|].
  rewrite (SetDefinitionEvent_eq _ _ _ _ _ He), Hrec, Hst. simpl.
  eexists. split; [reflexivity|]. split; [reflexivity|].
  split; [reflexivity|].
  assert (Hset : EventHasBeenRecorded
                   {| event_ := h; streams_defined_on_ := [s] |} = true).
  { unfold EventHasBeenRecorded. simpl. destruct (h_event h); congruence. }
  split; [|split].
  - intros s'. erewrite DefinedOn_eq by (simpl; apply lookup_insert_eq).
    rewrite Hset. simpl. now rewrite orb_false_r.
  - erewrite sequence_number_eq by (simpl; apply lookup_insert_eq).
    now rewrite Hset.
  - erewrite WaitForEventOnStream_eq by (simpl; apply lookup_insert_eq).
    rewrite Hset. simpl. now rewrite Nat.eqb_refl.
Qed.

Lemma SetDefinitionEvent_publishes_witness :
  WaitForEventOnStream 0%nat 7%nat world_unset_event = Blocked /\
  DefinedOn 0%nat 7%nat world_unset_event = Blocked /\
  exists w1,
    SetDefinitionEvent 0%nat (handle 40 5) 7%nat world_unset_event
      = Done (tt, w1) /\
    DefinedOn 0%nat 7%nat w1 = Done (true, w1) /\
    sequence_number 0%nat w1 = Done (5, w1).
Proof.
  destruct (SetDefinitionEvent_publishes world_unset_event 0%nat
              BufferDefinitionEvent_new (handle 40 5) 7%nat
              eq_refl eq_refl eq_refl ltac:(discriminate))
    as (Hwait & Hdef & w1 & Hset & _ & _ & Hon & Hseq & _).
  split; [apply Hwait|]. split; [apply Hdef|]. exists w1.
  split; [exact Hset|]. split; [apply (Hon 7%nat) | exact Hseq].
Defined.

(** X4: [SetDefinitionEvent] with a handle that holds no marker returns, yet
    leaves the event without a record for good: [EventHasBeenRecorded] stays
    false, so every wait and [DefinedOn] parks and [sequence_number] aborts,
    and the event can no longer be given a record, because any further
    [SetDefinitionEvent] fails the check that no stream is registered. *)
Theorem SetDefinitionEvent_without_marker (w : World) (p : EventPtr)
    (e : BufferDefinitionEvent) (h : Handle) (s : Stream) :
  events w !! p = Some e ->
  EventHasBeenRecorded e = false ->
  streams_defined_on_ e = [] ->
  h_event h = None ->
  exists w1,
    SetDefinitionEvent p h s w = Done (tt, w1) /\
    (forall s', WaitForEventOnStream p s' w1 = Blocked) /\
    (forall s', DefinedOn p s' w1 = Blocked) /\
    sequence_number p w1 = Crash /\
    (forall h' s', SetDefinitionEvent p h' s' w1 = Crash).
Proof.
  intros He Hrec Hst Hh.
  rewrite (SetDefinitionEvent_eq _ _ _ _ _ He), Hrec, Hst. simpl.
  eexists. split; [reflexivity|].
  assert (Hset : EventHasBeenRecorded
                   {| event_ := h; streams_defined_on_ := [s] |} = false).
  { unfold EventHasBeenRecorded. simpl. now rewrite Hh. }
  split; [|split; [|split]].
  - intros s'.
    erewrite WaitForEventOnStream_eq by (simpl; apply lookup_insert_eq).
    now rewrite Hset.
  - intros s'. erewrite DefinedOn_eq by (simpl; apply lookup_insert_eq).
    now rewrite Hset.
  - erewrite sequence_number_eq by (simpl; apply lookup_insert_eq).
    now rewrite Hset.
  - intros h' s'.
    erewrite SetDefinitionEvent_eq by (simpl; apply lookup_insert_eq).
    rewrite Hset. reflexivity.
Qed.

Lemma SetDefinitionEvent_without_marker_witness :
  exists w1,
    SetDefinitionEvent 0%nat Handle_default 7%nat world_unset_event
      = Done (tt, w1) /\
    WaitForEventOnStream 0%nat 7%nat w1 = Blocked /\
    SetDefinitionEvent 0%nat (handle 40 5) 7%nat w1 = Crash.
Proof.
  destruct (SetDefinitionEvent_without_marker world_unset_event 0%nat
              BufferDefinitionEvent_new Handle_default 7%nat
              eq_refl eq_refl eq_refl eq_refl)
    as (w1 & Hset & Hwait & _ & _ & Hagain).
  exists w1. split; [exact Hset|]. split; [apply Hwait | apply Hagain].
Defined.

(** ** Counters and storage over sequences of calls *)

Lemma same_storage_refl b : same_storage b b.
Proof. repeat split. Qed.

Lemma same_storage_trans b1 b2 b3 :
  same_storage b1 b2 -> same_storage b2 b3 -> same_storage b1 b3.
Proof.
  unfold same_storage. intros (?&?&?&?&?) (?&?&?&?&?).
  repeat split; congruence.
Qed.

Lemma call_counters self c w w' b :
  buffers_store w !! self = Some b ->
  call self c w = Done (tt, w') ->
  exists b',
    buffers_store w' !! self = Some b' /\
    external_references_ b' =
      external_references_ b + net_external_references c /\
    (0 <= external_references_ b -> 0 <= external_references_ b') /\
    same_storage b b' /\
    (forall q, q <> self -> buffers_store w' !! q = buffers_store w !! q).
Proof.
  intros Hb. destruct c; simpl.
  - rewrite (AddUsageHold_eq _ _ _ Hb).
    destruct (in_use_ b); [|discriminate]. intros [= <-].
    eexists. split; [apply lookup_insert_eq|]. simpl.
    repeat split; try lia. intros q Hq. now apply lookup_insert_ne.
  - rewrite (DropUsageHold_eq _ _ _ Hb).
    destruct (in_use_ b && _); [|discriminate]. intros [= <-].
    eexists. split; [apply lookup_insert_eq|]. simpl.
    repeat split; try lia. intros q Hq. now apply lookup_insert_ne.
  - rewrite (ConvertUsageHold_eq _ _ _ _ _ _ Hb).
    destruct (in_use_ b && _); [|discriminate].
    destruct (record_usage_event _ _ _ _ _) as [[l w2]| |];
      [|discriminate|discriminate].
    intros [= <-].
    eexists. split; [apply lookup_insert_eq|]. simpl.
    repeat split; try lia. intros q Hq. now apply lookup_insert_ne.
  - rewrite (AddExternalReference_eq _ _ _ Hb).
    destruct (in_use_ b); [|discriminate]. intros [= <-].
    eexists. split; [apply lookup_insert_eq|]. simpl.
    repeat split; try lia. intros q Hq. now apply lookup_insert_ne.
  - rewrite (DropExternalReference_eq _ _ _ Hb).
    destruct (external_references_ b >? 0) eqn:Hgt; [|discriminate].
    intros [= <-].
    eexists. split; [apply lookup_insert_eq|]. simpl.
    repeat split; try lia. intros q Hq. now apply lookup_insert_ne.
  - unfold bind. rewrite (LockUseAndTransferUsageEvents_eq _ _ _ Hb).
    destruct (in_use_ b); [|discriminate].
    destruct (_ =? 0); [|discriminate]. unfold ret. intros [= <-].
    eexists. split; [apply lookup_insert_eq|]. simpl.
    repeat split; try lia. intros q Hq. now apply lookup_insert_ne.
  - intros H. apply SetDefinitionEvent_buffers in H. rewrite H.
    exists b. repeat split; auto; lia.
  - intros H. apply WaitForEventOnStream_buffers in H. rewrite H.
    exists b. repeat split; auto; lia.
Qed.

Lemma calls_counters self cs : forall w w' b,
  buffers_store w !! self = Some b ->
  calls self cs w = Done (tt, w') ->
  exists b',
    buffers_store w' !! self = Some b' /\
    external_references_ b' =
      external_references_ b + total_net_external_references cs /\
    (0 <= external_references_ b -> 0 <= external_references_ b') /\
    same_storage b b' /\
    (forall q, q <> self -> buffers_store w' !! q = buffers_store w !! q).
Proof.
  induction cs as [|c cs IH]; intros w w' b Hb; simpl.
  - unfold ret. intros [= <-]. exists b.
    repeat split; auto; lia.
  - intros H. apply bind_inv in H as ([] & w1 & Hc & Hcs).
    destruct (call_counters _ _ _ _ _ Hb Hc)
      as (b1 & Hb1 & He1 & Hn1 & Hs1 & Ho1).
    destruct (IH _ _ _ Hb1 Hcs) as (b' & Hb' & He' & Hn' & Hs' & Ho').
    exists b'. split; [assumption|]. split; [lia|]. split; [auto|].
    split; [now apply (same_storage_trans b b1 b')|].
    intros q Hq. now rewrite (Ho' q Hq), (Ho1 q Hq).
Qed.

(** X5: over every sequence of calls that returns, [usage_holds_] and
    [external_references_] never go below zero; they are the counts the
    sequence started with plus the calls that add and minus the calls that
    drop or convert; the regions, device, allocator, definition events and
    delete callback of the buffer stay what they were; and no other buffer
    is touched. *)
Theorem counters_never_negative (w : World) (self : BufferPtr)
    (b : SharedDeviceBuffer) (cs : list Call) (w' : World) :
  buffers_store w !! self = Some b ->
  0 <= usage_holds_ b ->
  0 <= external_references_ b ->
  calls self cs w = Done (tt, w') ->
  exists b',
    buffers_store w' !! self = Some b' /\
    usage_holds_ b' = usage_holds_ b + total_net_holds cs /\
    external_references_ b' =
      external_references_ b + total_net_external_references cs /\
    0 <= usage_holds_ b' /\
    0 <= external_references_ b' /\
    same_storage b b' /\
    (forall q, q <> self -> buffers_store w' !! q = buffers_store w !! q).
Proof.
  intros Hb Hh Hr Hrun.
  destruct (calls_buffer _ _ _ _ _ Hb Hrun)
    as (b1 & Hb1 & Hholds & Hnn & _).
  destruct (calls_counters _ _ _ _ _ Hb Hrun)
    as (b2 & Hb2 & Hrefs & Hrn & Hst & Hoth).
  rewrite Hb1 in Hb2. injection Hb2 as <-.
  exists b1. repeat split; auto; apply Hst.
Qed.

Lemma counters_never_negative_witness :
  exists w' b',
    calls 0%nat
      [CallAddExternalReference; CallAddUsageHold; CallAddUsageHold;
       CallDropUsageHold; CallDropExternalReference]
      (world_with_buffer (sample_buffer 0 [])) = Done (tt, w') /\
    buffers_store w' !! 0%nat = Some b' /\
    usage_holds_ b' = 1 /\
    external_references_ b' = 0 /\
    device_memory_ b' = [region 4096 64; region 8192 32].
Proof.
  assert (Hrun :
    calls 0%nat
      [CallAddExternalReference; CallAddUsageHold; CallAddUsageHold;
       CallDropUsageHold; CallDropExternalReference]
      (world_with_buffer (sample_buffer 0 [])) = Done (tt, _))
    by (vm_compute; reflexivity).
  destruct (counters_never_negative
              (world_with_buffer (sample_buffer 0 [])) 0%nat
              (sample_buffer 0 []) _ _
              eq_refl ltac:(simpl; lia) ltac:(simpl; lia) Hrun)
    as (b' & Hb' & Hh & Hr & _ & _ & (_ & _ & Hmem & _) & _).
  eexists. exists b'. split; [exact Hrun|]. split; [exact Hb'|].
  split; [exact Hh|]. split; [exact Hr | exact Hmem].
Defined.

(** ** Destruction after a sequence of calls *)

Lemma destructor_aborts Ds w self b :
  buffers_store w !! self = Some b ->
  external_references_ b <> 0 ->
  SharedDeviceBuffer_destructor Ds self w = Crash.
Proof.
  intros Hb Hne. unfold SharedDeviceBuffer_destructor.
  rewrite (bind_Done _ _ _ _ _ (get_buffer_eq _ _ _ Hb)).
  apply bind_Crash. unfold CHECK.
  now replace (external_references_ b =? 0) with false by (symmetry; lia).
Qed.

Lemma destructor_returns Ds w self b :
  buffers_store w !! self = Some b ->
  external_references_ b = 0 ->
  exists released,
    SharedDeviceBuffer_destructor Ds self w =
      Done (tt, {| events := events w;
                   buffers_store := delete self (buffers_store w);
                   effects :=
                     effects w ++ released ++
                     match on_delete_callback_ b with
                     | Some cb => [OnDelete cb]
                     | None => []
                     end |}) /\
    deallocated released =
      match allocator_ b with
      | Some a => map (fun m => (a, device_ordinal_ b, m)) (device_memory_ b)
      | None => []
      end /\
    callbacks_invoked released = [].
Proof.
  intros Hb Hz. unfold SharedDeviceBuffer_destructor.
  rewrite (bind_Done _ _ _ _ _ (get_buffer_eq _ _ _ Hb)).
  rewrite Hz. rewrite (bind_Done _ _ _ tt w) by reflexivity.
  assert (Hloop : exists released,
    match allocator_ b with
    | Some a => deallocate_each Ds a (device_ordinal_ b) (device_memory_ b)
    | None => ret tt
    end w
    = Done (tt, {| events := events w; buffers_store := buffers_store w;
                   effects := effects w ++ released |}) /\
    deallocated released =
      match allocator_ b with
      | Some a => map (fun m => (a, device_ordinal_ b, m)) (device_memory_ b)
      | None => []
      end /\
    callbacks_invoked released = []).
  { destruct (allocator_ b) as [a|].
    - destruct (deallocate_each_eq Ds a (device_ordinal_ b)
                  (device_memory_ b) w)
        as (trace & Hrun & Hd & Hc & _).
      now exists trace.
    - exists []. unfold ret. rewrite app_nil_r, World_eta. now repeat split. }
  destruct Hloop as (released & Hrun & Hrest).
  exists released. split; [|exact Hrest].
  rewrite (bind_Done _ _ _ _ _ Hrun).
  unfold bind, emit, ret, release_buffer.
  destruct (on_delete_callback_ b); simpl.
  - now rewrite <- app_assoc.
  - now rewrite app_nil_r.
Qed.

(** X6: whether a buffer can be destroyed after a sequence of calls depends
    on the external references alone.  Starting without external
    references, the destructor aborts when the sequence added more of them
    than it dropped; otherwise it returns, whatever the usage holds, usage
    events and in-use flag are, removes the buffer, and deallocates the
    regions the buffer was built with, in order, through its allocator. *)
Theorem destructor_after_calls
    (Ds : list Effect -> Allocator -> Z -> DeviceMemoryBase -> Status)
    (w : World) (self : BufferPtr) (b : SharedDeviceBuffer)
    (cs : list Call) (w' : World) :
  buffers_store w !! self = Some b ->
  external_references_ b = 0 ->
  calls self cs w = Done (tt, w') ->
  (total_net_external_references cs <> 0 ->
   SharedDeviceBuffer_destructor Ds self w' = Crash) /\
  (total_net_external_references cs = 0 ->
   exists released w'',
     SharedDeviceBuffer_destructor Ds self w' = Done (tt, w'') /\
     buffers_store w'' !! self = None /\
     (forall q, q <> self -> buffers_store w'' !! q = buffers_store w !! q) /\
     effects w'' =
       effects w' ++ released ++
       match on_delete_callback_ b with
       | Some cb => [OnDelete cb]
       | None => []
       end /\
     deallocated released =
       match allocator_ b with
       | Some a => map (fun m => (a, device_ordinal_ b, m)) (device_memory_ b)
       | None => []
       end /\
     callbacks_invoked released = []).
Proof.
  intros Hb Hz Hrun.
  destruct (calls_counters _ _ _ _ _ Hb Hrun)
    as (b' & Hb' & Hrefs & _ & (Ha & Ho & Hm & _ & Hc) & Hoth).
  rewrite Hz in Hrefs. split.
  - intros Hne. apply (destructor_aborts _ _ _ b'); [assumption | lia].
  - intros Hnet.
    destruct (destructor_returns Ds w' self b' Hb' ltac:(lia))
      as (released & Hdes & Hd & Hcb).
    exists released. eexists. split; [exact Hdes|]. simpl.
    split; [apply lookup_delete_eq|].
    split; [intros q Hq; rewrite lookup_delete_ne by congruence; auto|].
    rewrite Hc. split; [reflexivity|]. rewrite Hd, Ha, Ho, Hm. auto.
Qed.

Lemma destructor_after_calls_witness :
  (exists w',
     calls 0%nat [CallAddUsageHold; CallAddExternalReference]
       (world_with_buffer (sample_buffer 0 [])) = Done (tt, w') /\
     SharedDeviceBuffer_destructor failing_at_4096 0%nat w' = Crash) /\
  (exists w' w'',
     calls 0%nat
       [CallAddUsageHold; CallAddExternalReference; CallDropExternalReference]
       (world_with_buffer (sample_buffer 0 [])) = Done (tt, w') /\
     SharedDeviceBuffer_destructor failing_at_4096 0%nat w' = Done (tt, w'') /\
     buffers_store w'' !! 0%nat = None).
Proof.
  split.
  - assert (Hrun :
      calls 0%nat [CallAddUsageHold; CallAddExternalReference]
        (world_with_buffer (sample_buffer 0 [])) = Done (tt, _))
      by (vm_compute; reflexivity).
    eexists. split; [exact Hrun|].
    apply (proj1 (destructor_after_calls failing_at_4096
                    (world_with_buffer (sample_buffer 0 [])) 0%nat
                    (sample_buffer 0 []) _ _ eq_refl eq_refl Hrun)).
    discriminate.
  - assert (Hrun :
      calls 0%nat
        [CallAddUsageHold; CallAddExternalReference;
         CallDropExternalReference]
        (world_with_buffer (sample_buffer 0 [])) = Done (tt, _))
      by (vm_compute; reflexivity).
    destruct (proj2 (destructor_after_calls failing_at_4096
                       (world_with_buffer (sample_buffer 0 [])) 0%nat
                       (sample_buffer 0 []) _ _ eq_refl eq_refl Hrun)
                eq_refl)
      as (released & w'' & Hdes & Hgone & _).
    eexists. exists w''. split; [exact Hrun|]. split; assumption.
Defined.

(** ** After [LockUseAndTransferUsageEvents] *)

Lemma LockUseAndTransferUsageEvents_inv self w evs w1 :
  LockUseAndTransferUsageEvents self w = Done (evs, w1) ->
  exists b,
    buffers_store w !! self = Some b /\
    in_use_ b = true /\
    usage_holds_ b = 0 /\
    evs = usage_events_ b /\
    w1 = update_buffer self (set_usage_events [] (set_in_use false b)) w.
Proof.
  intros H. destruct (buffers_store w !! self) as [b|] eqn:Hb.
  - rewrite (LockUseAndTransferUsageEvents_eq _ _ _ Hb) in H.
    destruct (in_use_ b) eqn:Hu; [|discriminate].
    destruct (usage_holds_ b =? 0) eqn:Hh; [|discriminate].
    apply Z.eqb_eq in Hh.
    injection H as <- <-. exists b. repeat split; auto.
  - unfold LockUseAndTransferUsageEvents, bind, get_buffer in H.
    now rewrite Hb in H.
Qed.

Lemma call_not_in_use self c w w' b :
  buffers_store w !! self = Some b ->
  in_use_ b = false ->
  call self c w = Done (tt, w') ->
  allowed_after_lock c = true.
Proof.
  intros Hb Hu. destruct c; simpl; try reflexivity.
  - now rewrite (AddUsageHold_eq _ _ _ Hb), Hu.
  - now rewrite (DropUsageHold_eq _ _ _ Hb), Hu.
  - now rewrite (ConvertUsageHold_eq _ _ _ _ _ _ Hb), Hu.
  - now rewrite (AddExternalReference_eq _ _ _ Hb), Hu.
  - unfold bind. now rewrite (LockUseAndTransferUsageEvents_eq _ _ _ Hb), Hu.
Qed.

Lemma calls_not_in_use self cs : forall w w' b,
  buffers_store w !! self = Some b ->
  in_use_ b = false ->
  calls self cs w = Done (tt, w') ->
  forallb allowed_after_lock cs = true.
Proof.
  induction cs as [|c cs IH]; intros w w' b Hb Hu; simpl; [reflexivity|].
  intros H. apply bind_inv in H as ([] & w1 & Hc & Hcs).
  rewrite (call_not_in_use _ _ _ _ _ Hb Hu Hc). simpl.
  destruct (call_buffer _ _ _ _ _ Hb Hc) as (b1 & Hb1 & E).
  apply (IH _ _ _ Hb1 (ce_locked _ _ _ E Hu) Hcs).
Qed.

Lemma call_not_in_use_events self c w w' b :
  buffers_store w !! self = Some b ->
  in_use_ b = false ->
  call self c w = Done (tt, w') ->
  exists b',
    buffers_store w' !! self = Some b' /\
    in_use_ b' = false /\
    usage_events_ b' = usage_events_ b.
Proof.
  intros Hb Hu. destruct c; simpl.
  - now rewrite (AddUsageHold_eq _ _ _ Hb), Hu.
  - now rewrite (DropUsageHold_eq _ _ _ Hb), Hu.
  - now rewrite (ConvertUsageHold_eq _ _ _ _ _ _ Hb), Hu.
  - now rewrite (AddExternalReference_eq _ _ _ Hb), Hu.
  - rewrite (DropExternalReference_eq _ _ _ Hb).
    destruct (_ >? 0); [|discriminate]. intros [= <-].
    eexists. split; [apply lookup_insert_eq|]. simpl. auto.
  - unfold bind. now rewrite (LockUseAndTransferUsageEvents_eq _ _ _ Hb), Hu.
  - intros H. apply SetDefinitionEvent_buffers in H. rewrite H.
    exists b. auto.
  - intros H. apply WaitForEventOnStream_buffers in H. rewrite H.
    exists b. auto.
Qed.

Lemma calls_not_in_use_events self cs : forall w w' b,
  buffers_store w !! self = Some b ->
  in_use_ b = false ->
  calls self cs w = Done (tt, w') ->
  exists b',
    buffers_store w' !! self = Some b' /\
    in_use_ b' = false /\
    usage_events_ b' = usage_events_ b.
Proof.
  induction cs as [|c cs IH]; intros w w' b Hb Hu; simpl.
  - unfold ret. intros [= <-]. exists b. auto.
  - intros H. apply bind_inv in H as ([] & w1 & Hc & Hcs).
    destruct (call_not_in_use_events _ _ _ _ _ Hb Hu Hc)
      as (b1 & Hb1 & Hu1 & He1).
    destruct (IH _ _ _ Hb1 Hu1 Hcs) as (b' & Hb' & Hu' & He').
    exists b'. repeat split; auto. congruence.
Qed.


(** X8: after any sequence of calls without a lock that returns on a buffer
    in use, [LockUseAndTransferUsageEvents] parks exactly when the holds
    added outnumber the holds dropped or converted; when they balance it
    returns one usage event for each stream the buffer had an event for or
    the sequence converted a hold on, and no stream twice. *)
Theorem lock_returns_converted_streams (w : World) (self : BufferPtr)
    (b : SharedDeviceBuffer) (cs : list Call) (w' : World) :
  buffers_store w !! self = Some b ->
  in_use_ b = true ->
  NoDup (map stream (usage_events_ b)) ->
  forallb (fun c => negb (is_lock_call c)) cs = true ->
  calls self cs w = Done (tt, w') ->
  (usage_holds_ b + total_net_holds cs <> 0 ->
   LockUseAndTransferUsageEvents self w' = Blocked) /\
  (usage_holds_ b + total_net_holds cs = 0 ->
   exists evs w'',
     LockUseAndTransferUsageEvents self w' = Done (evs, w'') /\
     NoDup (map stream evs) /\
     (forall s,
        s ∈ map stream evs <->
        s ∈ map stream (usage_events_ b) \/
        s ∈ concat (map converted_stream cs))).
Proof.
  intros Hb Hu Hnd Hno Hrun.
  destruct (calls_buffer _ _ _ _ _ Hb Hrun)
    as (b' & Hb' & Hh & _ & Hiu & _ & Hnd' & Hst).
  rewrite (LockUseAndTransferUsageEvents_eq _ _ _ Hb'), (Hiu Hno), Hu, Hh.
  split.
  - intros Hne.
    now replace (usage_holds_ b + total_net_holds cs =? 0) with false
      by (symmetry; lia).
  - intros ->. simpl. eexists. eexists. split; [reflexivity|]. auto.
Qed.

Lemma lock_returns_converted_streams_witness :
  (exists w',
     calls 0%nat [CallAddUsageHold; CallAddUsageHold;
                  CallConvertUsageHold 9%nat 3%nat true]
       (world_with_buffer (sample_buffer 0 [])) = Done (tt, w') /\
     LockUseAndTransferUsageEvents 0%nat w' = Blocked) /\
  (exists w' evs w'',
     calls 0%nat [CallAddUsageHold; CallAddUsageHold;
                  CallConvertUsageHold 9%nat 3%nat true; CallDropUsageHold]
       (world_with_buffer (sample_buffer 0 [])) = Done (tt, w') /\
     LockUseAndTransferUsageEvents 0%nat w' = Done (evs, w'') /\
     forall s, s ∈ map stream evs <-> s ∈ [] \/ s ∈ [9%nat]).
Proof.
  split.
  - assert (Hrun :
      calls 0%nat [CallAddUsageHold; CallAddUsageHold;
                   CallConvertUsageHold 9%nat 3%nat true]
        (world_with_buffer (sample_buffer 0 [])) = Done (tt, _))
      by (vm_compute; reflexivity).
    eexists. split; [exact Hrun|].
    apply (proj1 (lock_returns_converted_streams
                    (world_with_buffer (sample_buffer 0 [])) 0%nat
                    (sample_buffer 0 [])
                    [CallAddUsageHold; CallAddUsageHold;
                     CallConvertUsageHold 9%nat 3%nat true] _
                    eq_refl eq_refl
                    (NoDup_nil_2 (A := Stream)) eq_refl Hrun)).
    discriminate.
  - assert (Hrun :
      calls 0%nat [CallAddUsageHold; CallAddUsageHold;
                   CallConvertUsageHold 9%nat 3%nat true; CallDropUsageHold]
        (world_with_buffer (sample_buffer 0 [])) = Done (tt, _))
      by (vm_compute; reflexivity).
    destruct (proj2 (lock_returns_converted_streams
                       (world_with_buffer (sample_buffer 0 [])) 0%nat
                       (sample_buffer 0 [])
                       [CallAddUsageHold; CallAddUsageHold;
                        CallConvertUsageHold 9%nat 3%nat true;
                        CallDropUsageHold] _
                       eq_refl eq_refl
                       (NoDup_nil_2 (A := Stream)) eq_refl Hrun) eq_refl)
      as (evs & w'' & Hlock & _ & Hstreams).
    eexists. exists evs, w''. split; [exact Hrun|].
    split; [exact Hlock | exact Hstreams].
Defined.

(** ** The usage event kept for a stream *)

Lemma recorded_sequence_number_events w0 w p :
  events w0 = events w ->
  recorded_sequence_number w0 p = recorded_sequence_number w p.
Proof. unfold recorded_sequence_number. now intros ->. Qed.

Lemma conversions_on_app s cs cs' :
  conversions_on s (cs ++ cs') = conversions_on s cs ++ conversions_on s cs'.
Proof. apply flat_map_app. Qed.

Lemma holds_latest_idle w cs c l :
  converted_stream c = [] ->
  holds_latest w cs l -> holds_latest w (cs ++ [c]) l.
Proof.
  intros Hc H s. specialize (H s). rewrite conversions_on_app.
  assert (Hno : conversions_on s [c] = []).
  { unfold conversions_on. simpl. destruct c; try reflexivity. discriminate. }
  rewrite Hno, app_nil_r. exact H.
Qed.

Lemma holds_latest_convert w w0 cs l l' s ev held :
  events w0 = events w ->
  holds_latest w cs l ->
  record_usage_event s ev held l w0 = Done (l', w0) ->
  holds_latest w (cs ++ [CallConvertUsageHold s ev held]) l'.
Proof.
  intros Hev H Hrec s0. rewrite conversions_on_app.
  apply record_usage_event_inv in Hrec as [_ Hrec].
  unfold conversions_on at 2 4 6. simpl. rewrite app_nil_r.
  destruct (Nat.eqb_spec s s0) as [<-|Hne].
  - specialize (H s). destruct (entry_for s l) as [x|] eqn:Ex.
    + destruct Hrec as (n_old & n_new & Hold & Hnew & ->).
      rewrite (recorded_sequence_number_events _ _ (event x) Hev) in Hold.
      rewrite (recorded_sequence_number_events _ _ ev Hev) in Hnew.
      destruct H as [Hin Hmax].
      destruct (Z.ltb_spec n_old n_new) as [Hlt|Hge].
      * rewrite (supersede_entry _ _ _ _ _ Ex). simpl. split.
        { apply elem_of_app. right. apply list_elem_of_here. }
        intros ev' Hin'. apply elem_of_app in Hin' as [Hin'|Hin'].
        -- right. destruct (Hmax _ Hin') as [->|(n & n' & Hn & Hn' & Hle)].
           ++ exists n_old, n_new. repeat split; auto. lia.
           ++ exists n, n_new. repeat split; auto.
              rewrite Hold in Hn'. injection Hn' as <-. lia.
        -- apply list_elem_of_singleton in Hin'. now left.
      * rewrite Ex. split.
        { apply elem_of_app. now left. }
        intros ev' Hin'. apply elem_of_app in Hin' as [Hin'|Hin'].
        -- now apply Hmax.
        -- apply list_elem_of_singleton in Hin'. subst ev'.
           right. exists n_new, n_old. auto.
    + subst l'.
      rewrite (entry_for_app_absent s l
                 {| stream := s; event := ev; reference_held := held |}
                 Ex eq_refl).
      rewrite H. simpl. split; [apply list_elem_of_here|].
      intros ev' Hin'. apply list_elem_of_singleton in Hin'. now left.
  - specialize (H s0). rewrite app_nil_r.
    assert (Hsame : entry_for s0 l' = entry_for s0 l).
    { destruct (entry_for s l) as [x|] eqn:Ex.
      - destruct Hrec as (n_old & n_new & _ & _ & ->).
        destruct (n_old <? n_new); [|reflexivity].
        apply supersede_other. congruence.
      - subst l'. now apply entry_for_app_other. }
    now rewrite Hsame.
Qed.

Lemma calls_hold_latest w self cs : forall pre w0 w' b0,
  events w0 = events w ->
  buffers_store w0 !! self = Some b0 ->
  holds_latest w pre (usage_events_ b0) ->
  forallb is_hold_call cs = true ->
  calls self cs w0 = Done (tt, w') ->
  exists b',
    buffers_store w' !! self = Some b' /\
    holds_latest w (pre ++ cs) (usage_events_ b').
Proof.
  induction cs as [|c cs IH]; intros pre w0 w' b0 Hev Hb H Hhold; simpl.
  - unfold ret. intros [= <-]. exists b0. now rewrite app_nil_r.
  - intros Hrun. apply bind_inv in Hrun as ([] & w1 & Hc & Hcs).
    simpl in Hhold. apply andb_true_iff in Hhold as [Hc1 Hhold].
    assert (Hstep : exists b1,
      buffers_store w1 !! self = Some b1 /\
      events w1 = events w /\
      holds_latest w (pre ++ [c]) (usage_events_ b1)).
    { destruct c; try discriminate; simpl in Hc.
      - rewrite (AddUsageHold_eq _ _ _ Hb) in Hc.
        destruct (in_use_ b0); [|discriminate]. injection Hc as <-.
        eexists. split; [apply lookup_insert_eq|]. split; [exact Hev|].
        now apply holds_latest_idle.
      - rewrite (DropUsageHold_eq _ _ _ Hb) in Hc.
        destruct (in_use_ b0 && _); [|discriminate]. injection Hc as <-.
        eexists. split; [apply lookup_insert_eq|]. split; [exact Hev|].
        now apply holds_latest_idle.
      - rewrite (ConvertUsageHold_eq _ _ _ _ _ _ Hb) in Hc.
        destruct (in_use_ b0 && _); [|discriminate].
        destruct (record_usage_event _ _ _ _ _) as [[l w2]| |] eqn:E;
          [|discriminate|discriminate].
        injection Hc as <-.
        eexists. split; [apply lookup_insert_eq|]. split; [exact Hev|].
        simpl. pose proof (record_usage_event_inv _ _ _ _ _ _ _ E) as [-> _].
        now apply (holds_latest_convert w w0 pre (usage_events_ b0)). }
    destruct Hstep as (b1 & Hb1 & Hev1 & H1).
    destruct (IH (pre ++ [c]) w1 w' b1 Hev1 Hb1 H1 Hhold Hcs)
      as (b' & Hb' & H').
    exists b'. split; [assumption|].
    now rewrite <- app_assoc in H'.
Qed.

(** X9: after any sequence of [AddUsageHold], [DropUsageHold] and
    [ConvertUsageHold] that returns on a buffer without usage events, the
    entry [usage_events_] keeps for a stream holds one of the events
    converted on that stream, and every event converted on it is that event
    or has a sequence number that is not greater; a stream has an entry
    exactly when a hold was converted on it. *)
Theorem usage_event_is_latest_converted (w : World) (self : BufferPtr)
    (b : SharedDeviceBuffer) (cs : list Call) (w' : World) :
  buffers_store w !! self = Some b ->
  usage_events_ b = [] ->
  forallb is_hold_call cs = true ->
  calls self cs w = Done (tt, w') ->
  forall s,
    match entry_for s (usage_events_at self w') with
    | None => conversions_on s cs = []
    | Some x =>
        event x ∈ conversions_on s cs /\
        forall ev, ev ∈ conversions_on s cs -> not_later w ev (event x)
    end.
Proof.
  intros Hb He Hhold Hrun.
  assert (H0 : holds_latest w [] (usage_events_ b)).
  { intros s. now rewrite He. }
  destruct (calls_hold_latest w self cs [] w w' b eq_refl Hb H0 Hhold Hrun)
    as (b' & Hb' & H').
  unfold usage_events_at. rewrite Hb'. exact H'.
Qed.

Lemma usage_event_is_latest_converted_witness :
  exists w' x,
    calls 0%nat
      [CallAddUsageHold; CallAddUsageHold; CallAddUsageHold;
       CallConvertUsageHold 7%nat 2%nat false;
       CallConvertUsageHold 7%nat 1%nat true;
       CallConvertUsageHold 7%nat 2%nat false]
      (world_with_buffer (sample_buffer 0 [])) = Done (tt, w') /\
    entry_for 7%nat (usage_events_at 0%nat w') = Some x /\
    event x = 1%nat /\
    not_later (world_with_buffer (sample_buffer 0 [])) 2%nat (event x).
Proof.
  assert (Hrun :
    calls 0%nat
      [CallAddUsageHold; CallAddUsageHold; CallAddUsageHold;
       CallConvertUsageHold 7%nat 2%nat false;
       CallConvertUsageHold 7%nat 1%nat true;
       CallConvertUsageHold 7%nat 2%nat false]
      (world_with_buffer (sample_buffer 0 [])) = Done (tt, _))
    by (vm_compute; reflexivity).
  pose proof (usage_event_is_latest_converted
                (world_with_buffer (sample_buffer 0 [])) 0%nat
                (sample_buffer 0 [])
                [CallAddUsageHold; CallAddUsageHold; CallAddUsageHold;
                 CallConvertUsageHold 7%nat 2%nat false;
                 CallConvertUsageHold 7%nat 1%nat true;
                 CallConvertUsageHold 7%nat 2%nat false] _
                eq_refl eq_refl eq_refl Hrun 7%nat) as H.
  eexists. eexists. split; [exact Hrun|]. split; [reflexivity|].
  split; [reflexivity|]. apply (proj2 H). apply list_elem_of_here.
Defined.

(** ** Slot counts of shaped buffers *)

Lemma extract_regions_short w : forall subshapes iterator tree out,
  (iterator <= length tree)%nat ->
  (length tree < iterator + length subshapes)%nat ->
  extract_regions subshapes iterator tree out w = Crash.
Proof.
  induction subshapes as [|n subshapes IH]; intros iterator tree out Hle Hlt.
  - simpl in Hlt. lia.
  - simpl. destruct (tree !! iterator) as [[index mem]|] eqn:Hl;
      [|reflexivity].
    apply lookup_lt_Some in Hl.
    apply IH; rewrite length_insert; simpl in Hlt; lia.
Qed.

Lemma populate_regions_short w : forall device_memory iterator tree,
  (iterator <= length tree)%nat ->
  (length tree < iterator + length device_memory)%nat ->
  populate_regions device_memory iterator tree w = Crash.
Proof.
  induction device_memory as [|buf device_memory IH];
    intros iterator tree Hle Hlt.
  - simpl in Hlt. lia.
  - simpl. destruct (tree !! iterator) as [[index mem]|] eqn:Hl;
      [|reflexivity].
    apply lookup_lt_Some in Hl.
    apply IH; rewrite length_insert; simpl in Hlt; lia.
Qed.

Lemma FromScopedShapedBuffer_mismatch w src definition_events :
  length (buffers (shaped src))
    <> length (ForEachSubshape (on_device_shape (shaped src)) []) ->
  FromScopedShapedBuffer src definition_events w = Crash.
Proof.
  intros Hne. unfold FromScopedShapedBuffer. cbv zeta.
  set (subshapes := ForEachSubshape (on_device_shape (shaped src)) []) in *.
  set (tree := buffers (shaped src)) in *.
  destruct (Nat.lt_ge_cases (length tree) (length subshapes)) as [Hlt|Hge].
  - apply bind_Crash. apply extract_regions_short; simpl; lia.
  - assert (Hmid : length (take (length subshapes) tree) = length subshapes)
      by (rewrite length_take; lia).
    pose proof (extract_regions_eq w subshapes
                  (take (length subshapes) tree) []
                  (drop (length subshapes) tree) [] Hmid) as Hrun.
    simpl in Hrun. rewrite take_drop in Hrun.
    rewrite (bind_Done _ _ _ _ _ Hrun).
    apply bind_Crash. unfold CHECK.
    rewrite length_app, length_map, length_take, length_drop.
    replace (_ =? _)%nat with false; [reflexivity|].
    symmetry. apply Nat.eqb_neq. lia.
Qed.

Lemma FromScopedShapedBuffer_match w src definition_events :
  length (buffers (shaped src))
    = length (ForEachSubshape (on_device_shape (shaped src)) []) ->
  FromScopedShapedBuffer src definition_events w =
    Done ((fresh (dom (buffers_store w)),
           {| shaped :=
                set_buffers
                  (map (fun n => (fst n, DeviceMemoryBase_null))
                       (buffers (shaped src)))
                  (shaped src);
              memory_allocator := memory_allocator src |}),
          update_buffer (fresh (dom (buffers_store w)))
            (SharedDeviceBuffer_new (memory_allocator src)
               (device_ordinal (shaped src))
               (regions (buffers (shaped src)))
               definition_events None) w).
Proof.
  intros Hlen. unfold FromScopedShapedBuffer. cbv zeta.
  pose proof (extract_regions_eq w
                (ForEachSubshape (on_device_shape (shaped src)) [])
                (buffers (shaped src)) [] [] [] Hlen) as Hrun.
  simpl in Hrun. rewrite app_nil_r in Hrun.
  rewrite (bind_Done _ _ _ _ _ Hrun).
  rewrite app_nil_r, length_map.
  unfold bind, CHECK, make_shared, ret. rewrite Nat.eqb_refl.
  reflexivity.
Qed.

Lemma fresh_buffer_absent w :
  buffers_store w !! fresh (dom (buffers_store w)) = None.
Proof. apply not_elem_of_dom, is_fresh. Qed.

(** X10: [FromScopedShapedBuffer] aborts unless the source's tree has as
    many slots as its device shape has subshapes.  When it has, the call
    returns a buffer at an address no buffer had: in use, without holds,
    references, usage events or callback, holding the source's regions in
    slot order with the source's allocator and device; every slot of the
    source is left holding the null region under the same index, and
    nothing else in the program changes. *)
Theorem FromScopedShapedBuffer_checks_slot_count (w : World)
    (src : ScopedShapedBuffer) (definition_events : list EventPtr) :
  (length (buffers (shaped src))
     <> length (ForEachSubshape (on_device_shape (shaped src)) []) ->
   FromScopedShapedBuffer src definition_events w = Crash) /\
  (length (buffers (shaped src))
     = length (ForEachSubshape (on_device_shape (shaped src)) []) ->
   exists p cleared w',
     FromScopedShapedBuffer src definition_events w
       = Done ((p, cleared), w') /\
     buffers_store w !! p = None /\
     buffers_store w' !! p =
       Some (SharedDeviceBuffer_new (memory_allocator src)
               (device_ordinal (shaped src))
               (regions (buffers (shaped src)))
               definition_events None) /\
     (forall q, q <> p -> buffers_store w' !! q = buffers_store w !! q) /\
     events w' = events w /\
     effects w' = effects w /\
     map fst (buffers (shaped cleared)) = map fst (buffers (shaped src)) /\
     Forall (fun m => m = DeviceMemoryBase_null)
            (regions (buffers (shaped cleared))) /\
     memory_allocator cleared = memory_allocator src).
Proof.
  split; [apply FromScopedShapedBuffer_mismatch|].
  intros Hlen. eexists. eexists. eexists.
  split; [now apply FromScopedShapedBuffer_match|].
  split; [apply fresh_buffer_absent|].
  split; [apply lookup_insert_eq|].
  split; [intros q Hq; simpl; now rewrite lookup_insert_ne|].
  split; [reflexivity|]. split; [reflexivity|]. simpl.
  split; [now rewrite map_map|].
  split; [|reflexivity].
  unfold regions. rewrite map_map. simpl.
  apply Forall_forall. intros m Hm. apply list_elem_of_fmap in Hm.
  now destruct Hm as (? & -> & _).
Qed.

Lemma FromScopedShapedBuffer_checks_slot_count_witness :
  FromScopedShapedBuffer
    {| shaped := set_buffers [([], region 256 16)] (shaped sample_source);
       memory_allocator := Some 1%nat |} [] no_objects = Crash /\
  exists p cleared w',
    FromScopedShapedBuffer sample_source [] no_objects
      = Done ((p, cleared), w') /\
    device_memory_ <$> buffers_store w' !! p
      = Some [region 256 16; region 4096 64; region 8192 32] /\
    Forall (fun m => m = DeviceMemoryBase_null)
           (regions (buffers (shaped cleared))).
Proof.
  split.
  - apply (proj1 (FromScopedShapedBuffer_checks_slot_count no_objects
                    {| shaped :=
                         set_buffers [([], region 256 16)]
                           (shaped sample_source);
                       memory_allocator := Some 1%nat |} [])).
    discriminate.
  - destruct (proj2 (FromScopedShapedBuffer_checks_slot_count no_objects
                       sample_source []) eq_refl)
      as (p & cleared & w' & Hrun & _ & Hb & _ & _ & _ & _ & Hnull & _).
    exists p, cleared, w'. split; [exact Hrun|].
    split; [now rewrite Hb | exact Hnull].
Defined.

Lemma AsShapedBuffer_mismatch w self b host device pl :
  buffers_store w !! self = Some b ->
  length (device_memory_ b) <> length (ForEachSubshape device []) ->
  AsShapedBuffer self host device pl w = Crash.
Proof.
  intros Hb Hne. unfold AsShapedBuffer.
  rewrite (bind_Done _ _ _ _ _ (get_buffer_eq _ _ _ Hb)).
  cbn [buffers ShapedBuffer_new].
  assert (Hl : length (ShapeTree_new device)
               = length (ForEachSubshape device []))
    by (unfold ShapeTree_new; now rewrite length_map).
  destruct (Nat.lt_ge_cases (length (ShapeTree_new device))
              (length (device_memory_ b))) as [Hlt|Hge].
  - apply bind_Crash. apply populate_regions_short; simpl; lia.
  - assert (Hmid : length (take (length (device_memory_ b))
                                 (ShapeTree_new device))
                   = length (device_memory_ b))
      by (rewrite length_take; lia).
    pose proof (populate_regions_eq w (device_memory_ b)
                  (take (length (device_memory_ b)) (ShapeTree_new device)) []
                  (drop (length (device_memory_ b)) (ShapeTree_new device))
                  Hmid) as Hrun.
    simpl in Hrun. rewrite take_drop in Hrun.
    rewrite (bind_Done _ _ _ _ _ Hrun).
    apply bind_Crash. unfold CHECK.
    rewrite length_app, length_zip, length_map, length_take, length_drop.
    replace (_ =? _)%nat with false; [reflexivity|].
    symmetry. apply Nat.eqb_neq. lia.
Qed.

(** X11: [AsShapedBuffer] aborts when the buffer's number of regions differs
    from the number of subshapes of the device shape it is given, and
    otherwise returns a shaped buffer of the given shapes and platform, on
    the buffer's device, whose slots hold the buffer's regions in order, one
    per subshape; it never parks. *)
Theorem AsShapedBuffer_checks_region_count (w : World) (self : BufferPtr)
    (b : SharedDeviceBuffer) (host device : Shape) (pl : Platform) :
  buffers_store w !! self = Some b ->
  (length (device_memory_ b) <> length (ForEachSubshape device []) ->
   AsShapedBuffer self host device pl w = Crash) /\
  (length (device_memory_ b) = length (ForEachSubshape device []) ->
   exists out,
     AsShapedBuffer self host device pl w = Done (out, w) /\
     on_host_shape out = host /\
     on_device_shape out = device /\
     platform out = pl /\
     device_ordinal out = device_ordinal_ b /\
     regions (buffers out) = device_memory_ b /\
     map fst (buffers out) = map snd (ForEachSubshape device [])).
Proof.
  intros Hb. split; [now apply AsShapedBuffer_mismatch|].
  intros Hlen. eexists.
  split; [apply (AsShapedBuffer_eq w self b host device pl Hb Hlen)|]. simpl.
  repeat split.
  - unfold regions. apply snd_zip. rewrite length_map. lia.
  - apply fst_zip. rewrite length_map. lia.
Qed.

Lemma AsShapedBuffer_checks_region_count_witness :
  AsShapedBuffer 0%nat pair_shape pair_shape 2%nat
    (world_with_buffer (sample_buffer 0 [])) = Crash /\
  exists out,
    AsShapedBuffer 0%nat boxed_shape boxed_shape 2%nat
      (world_with_buffer (sample_buffer 0 []))
      = Done (out, world_with_buffer (sample_buffer 0 [])) /\
    buffers out = [([], region 4096 64); ([0%nat], region 8192 32)].
Proof.
  split.
  - apply (proj1 (AsShapedBuffer_checks_region_count
                    (world_with_buffer (sample_buffer 0 [])) 0%nat
                    (sample_buffer 0 []) pair_shape pair_shape 2%nat
                    eq_refl)).
    discriminate.
  - destruct (proj2 (AsShapedBuffer_checks_region_count
                       (world_with_buffer (sample_buffer 0 [])) 0%nat
                       (sample_buffer 0 []) boxed_shape boxed_shape 2%nat
                       eq_refl) eq_refl)
      as (out & Hrun & _ & _ & _ & _ & Hreg & Hidx).
    exists out. split; [exact Hrun|].
    rewrite <- (zip_fst_snd (buffers out)). fold (regions (buffers out)).
    now rewrite Hreg, Hidx.
Defined.

(** ** Ownership of the regions *)

Lemma FromScopedShapedBuffer_inv w src definition_events p cleared w' :
  FromScopedShapedBuffer src definition_events w = Done ((p, cleared), w') ->
  length (buffers (shaped src))
    = length (ForEachSubshape (on_device_shape (shaped src)) []) /\
  p = fresh (dom (buffers_store w)) /\
  cleared = {| shaped :=
                 set_buffers
                   (map (fun n => (fst n, DeviceMemoryBase_null))
                        (buffers (shaped src)))
                   (shaped src);
               memory_allocator := memory_allocator src |} /\
  w' = update_buffer p
         (SharedDeviceBuffer_new (memory_allocator src)
            (device_ordinal (shaped src))
            (regions (buffers (shaped src)))
            definition_events None) w.
Proof.
  intros H.
  destruct (decide (length (buffers (shaped src))
                    = length (ForEachSubshape
                                (on_device_shape (shaped src)) [])))
    as [Hlen|Hne].
  - rewrite (FromScopedShapedBuffer_match _ _ _ Hlen) in H.
    injection H as <- <- <-. auto.
  - now rewrite (FromScopedShapedBuffer_mismatch _ _ _ Hne) in H.
Qed.

(** X12: extraction moves the regions out of the source.  A second
    [FromScopedShapedBuffer] on a source that has been extracted returns a
    buffer at another address whose regions are all null, one per slot, and
    leaves the source and the first buffer as they were, so no region is
    held by two buffers. *)
Theorem FromScopedShapedBuffer_moves_regions (w : World)
    (src : ScopedShapedBuffer) (definition_events : list EventPtr)
    (p : BufferPtr) (cleared : ScopedShapedBuffer) (w1 : World)
    (definition_events2 : list EventPtr) :
  FromScopedShapedBuffer src definition_events w = Done ((p, cleared), w1) ->
  exists p2 w2,
    FromScopedShapedBuffer cleared definition_events2 w1
      = Done ((p2, cleared), w2) /\
    p2 <> p /\
    device_memory_ <$> buffers_store w2 !! p2
      = Some (map (fun _ => DeviceMemoryBase_null) (buffers (shaped src))) /\
    buffers_store w2 !! p = buffers_store w1 !! p /\
    device_memory_ <$> buffers_store w1 !! p
      = Some (regions (buffers (shaped src))).
Proof.
  intros H. apply FromScopedShapedBuffer_inv in H as (Hlen & -> & -> & ->).
  set (p := fresh (dom (buffers_store w))).
  set (b := SharedDeviceBuffer_new (memory_allocator src)
              (device_ordinal (shaped src))
              (regions (buffers (shaped src))) definition_events None).
  set (cleared := {| shaped := _; memory_allocator := _ |}).
  assert (Hlen2 : length (buffers (shaped cleared))
                  = length (ForEachSubshape
                              (on_device_shape (shaped cleared)) []))
    by (simpl; now rewrite length_map).
  assert (Hne : fresh (dom (buffers_store (update_buffer p b w))) <> p).
  { intros Heq.
    pose proof (fresh_buffer_absent (update_buffer p b w)) as Habs.
    assert (Hin : buffers_store (update_buffer p b w) !! p = Some b)
      by apply lookup_insert_eq.
    unfold BufferPtr in *. congruence. }
  eexists. eexists.
  split.
  { rewrite (FromScopedShapedBuffer_match _ _ _ Hlen2).
    f_equal. f_equal. f_equal. unfold cleared. simpl. f_equal.
    unfold set_buffers. simpl. f_equal. now rewrite map_map. }
  split; [exact Hne|].
  split.
  { simpl. rewrite lookup_insert_eq. simpl. f_equal.
    unfold regions. now rewrite map_map. }
  split.
  { simpl. now rewrite lookup_insert_ne by exact Hne. }
  simpl. now rewrite lookup_insert_eq.
Qed.

Lemma FromScopedShapedBuffer_moves_regions_witness :
  exists p cleared w1 p2 w2,
    FromScopedShapedBuffer sample_source [] no_objects
      = Done ((p, cleared), w1) /\
    FromScopedShapedBuffer cleared [] w1 = Done ((p2, cleared), w2) /\
    p2 <> p /\
    device_memory_ <$> buffers_store w2 !! p2
      = Some [DeviceMemoryBase_null; DeviceMemoryBase_null;
              DeviceMemoryBase_null].
Proof.
  assert (Hrun :
    FromScopedShapedBuffer sample_source [] no_objects = Done ((_, _), _))
    by (vm_compute; reflexivity).
  destruct (FromScopedShapedBuffer_moves_regions _ _ _ _ _ _ [] Hrun)
    as (p2 & w2 & Hrun2 & Hne & Hnull & _).
  eexists. eexists. eexists. exists p2, w2.
  split; [exact Hrun|]. split; [exact Hrun2|]. split; [exact Hne|].
  exact Hnull.
Defined.

(** X13: destroying the buffer built from a shaped source returns, whatever
    the allocator answers, deallocates the regions the source held, in slot
    order, on the source's device through the source's allocator, invokes no
    callback, and leaves the store of buffers as it was before the
    construction. *)
Theorem destructor_of_extracted_buffer
    (Ds : list Effect -> Allocator -> Z -> DeviceMemoryBase -> Status)
    (w : World) (src : ScopedShapedBuffer)
    (definition_events : list EventPtr) (p : BufferPtr)
    (cleared : ScopedShapedBuffer) (w1 : World) :
  FromScopedShapedBuffer src definition_events w = Done ((p, cleared), w1) ->
  exists released w2,
    SharedDeviceBuffer_destructor Ds p w1 = Done (tt, w2) /\
    buffers_store w2 = buffers_store w /\
    events w2 = events w /\
    effects w2 = effects w ++ released /\
    deallocated released =
      match memory_allocator src with
      | Some a =>
          map (fun m => (a, device_ordinal (shaped src), m))
              (regions (buffers (shaped src)))
      | None => []
      end /\
    callbacks_invoked released = [].
Proof.
  intros H. apply FromScopedShapedBuffer_inv in H as (Hlen & -> & _ & ->).
  set (p := fresh (dom (buffers_store w))).
  set (b := SharedDeviceBuffer_new (memory_allocator src)
              (device_ordinal (shaped src))
              (regions (buffers (shaped src))) definition_events None).
  destruct (destructor_returns Ds (update_buffer p b w) p b
              (lookup_insert_eq _ _ _) eq_refl)
    as (released & Hdes & Hd & Hc).
  exists released. eexists. split; [exact Hdes|]. simpl.
  split; [apply delete_insert_id, fresh_buffer_absent|].
  split; [reflexivity|]. split; [now rewrite app_nil_r|].
  split; [exact Hd | exact Hc].
Qed.

Lemma destructor_of_extracted_buffer_witness :
  exists p cleared w1 w2,
    FromScopedShapedBuffer sample_source [] no_objects
      = Done ((p, cleared), w1) /\
    SharedDeviceBuffer_destructor failing_at_4096 p w1 = Done (tt, w2) /\
    buffers_store w2 = ∅ /\
    deallocated (effects w2)
      = [(1%nat, 0, region 256 16); (1%nat, 0, region 4096 64);
         (1%nat, 0, region 8192 32)].
Proof.
  assert (Hrun :
    FromScopedShapedBuffer sample_source [] no_objects = Done ((_, _), _))
    by (vm_compute; reflexivity).
  destruct (destructor_of_extracted_buffer failing_at_4096 _ _ _ _ _ _ Hrun)
    as (released & w2 & Hdes & Hst & _ & Heff & Hd & _).
  eexists. eexists. eexists. exists w2.
  split; [exact Hrun|]. split; [exact Hdes|]. split; [exact Hst|].
  rewrite Heff. exact Hd.
Defined.

(** ** Handing a hold from one guard to another *)

(** X14: a hold can be moved between guards.  [Release] hands out the
    buffer and empties the guard without touching the hold count, and
    [Transfer] puts it into another empty guard, again without touching the
    count; destroying that guard then drops the one hold [Acquire] took and
    the program state is as before the [Acquire].  [Transfer] on a guard
    that holds a buffer aborts, as does [Convert] on an empty guard; and a
    guard given, by [Transfer], a buffer on which no hold is outstanding
    aborts when it is destroyed. *)
Theorem ScopedUsage_hold_moves (w : World) (p : BufferPtr)
    (b : SharedDeviceBuffer) :
  buffers_store w !! p = Some b ->
  in_use_ b = true ->
  0 <= usage_holds_ b ->
  let held := {| ScopedUsage.parent_ := Some p |} in
  exists w1,
    ScopedUsage.Acquire ScopedUsage.empty (Some p) w = Done (held, w1) /\
    ScopedUsage.Release held w1 = Done ((Some p, ScopedUsage.empty), w1) /\
    ScopedUsage.Transfer ScopedUsage.empty (Some p) w1 = Done (held, w1) /\
    usage_holds_ <$> buffers_store w1 !! p = Some (usage_holds_ b + 1) /\
    ScopedUsage.destructor held w1 = Done (tt, w) /\
    ScopedUsage.destructor ScopedUsage.empty w1 = Done (tt, w1) /\
    (forall q, ScopedUsage.Transfer held q w1 = Crash) /\
    (forall s ev h, ScopedUsage.Convert ScopedUsage.empty s ev h w1 = Crash) /\
    (usage_holds_ b = 0 ->
     ScopedUsage.Transfer ScopedUsage.empty (Some p) w = Done (held, w) /\
     ScopedUsage.destructor held w = Crash).
Proof.
  intros Hb Hu Hh held.
  set (w1 := update_buffer p (set_usage_holds (usage_holds_ b + 1) b) w).
  exists w1.
  assert (Hb1 : buffers_store w1 !! p
                = Some (set_usage_holds (usage_holds_ b + 1) b))
    by apply lookup_insert_eq.
  split.
  { unfold ScopedUsage.Acquire. simpl.
    rewrite (bind_Done _ _ _ tt w) by reflexivity.
    erewrite bind_Done; [reflexivity|].
    now rewrite (AddUsageHold_eq _ _ _ Hb), Hu. }
  split; [reflexivity|]. split; [reflexivity|].
  split; [now rewrite Hb1|].
  split.
  { change (ScopedUsage.destructor held w1) with (DropUsageHold p w1).
    rewrite (DropUsageHold_eq _ _ _ Hb1). simpl. rewrite Hu.
    replace (usage_holds_ b + 1 >? 0) with true by (symmetry; lia). simpl.
    unfold w1. rewrite update_buffer_twice, set_usage_holds_twice.
    replace (usage_holds_ b + 1 - 1) with (usage_holds_ b) by lia.
    rewrite set_usage_holds_same. now rewrite (update_buffer_same _ _ _ Hb). }
  split; [reflexivity|]. split; [reflexivity|]. split; [reflexivity|].
  intros Hz. split; [reflexivity|].
  change (ScopedUsage.destructor held w) with (DropUsageHold p w).
  rewrite (DropUsageHold_eq _ _ _ Hb), Hu, Hz. reflexivity.
Qed.

Lemma ScopedUsage_hold_moves_witness :
  exists w1,
    ScopedUsage.Acquire ScopedUsage.empty (Some 0%nat)
      (world_with_buffer (sample_buffer 0 []))
      = Done ({| ScopedUsage.parent_ := Some 0%nat |}, w1) /\
    ScopedUsage.Transfer ScopedUsage.empty (Some 0%nat) w1
      = Done ({| ScopedUsage.parent_ := Some 0%nat |}, w1) /\
    ScopedUsage.destructor {| ScopedUsage.parent_ := Some 0%nat |} w1
      = Done (tt, world_with_buffer (sample_buffer 0 [])) /\
    ScopedUsage.destructor {| ScopedUsage.parent_ := Some 0%nat |}
      (world_with_buffer (sample_buffer 0 [])) = Crash.
Proof.
  destruct (ScopedUsage_hold_moves (world_with_buffer (sample_buffer 0 []))
              0%nat (sample_buffer 0 []) eq_refl eq_refl ltac:(simpl; lia))
    as (w1 & Hacq & _ & Htr & _ & Hdes & _ & _ & _ & Hzero).
  exists w1. split; [exact Hacq|]. split; [exact Htr|].
  split; [exact Hdes | apply (Hzero eq_refl)].
Defined.

(** ** Waiting for the definition events of a buffer *)

Lemma collected_events (l : list EventPtr) : forall (X : gset nat) x,
  x ∈ foldl (fun acc e => {[ e ]} ∪ acc) X l <-> x ∈ X \/ x ∈ l.
Proof.
  induction l as [|e l IH]; intros X x; simpl.
  - rewrite elem_of_nil. tauto.
  - rewrite IH, elem_of_union, elem_of_singleton, elem_of_cons. tauto.
Qed.

Lemma collected_events_set (l : list EventPtr) :
  foldl (fun acc e => {[ e ]} ∪ acc) (∅ : gset nat) l = list_to_set l.
Proof.
  apply set_eq. intros x.
  rewrite collected_events, elem_of_list_to_set. split; [|now right].
  intros [Hx|Hx]; [now apply elem_of_empty in Hx | exact Hx].
Qed.

Lemma streams_at_eq w p e :
  events w !! p = Some e -> streams_at p w = streams_defined_on_ e.
Proof. intros H. unfold streams_at. now rewrite H. Qed.

Lemma wait_for_each_noop s : forall l w,
  (forall p, p ∈ l ->
     recorded_at w p = true /\ found s (streams_at p w) = true) ->
  wait_for_each l s w = Done (tt, w).
Proof.
  induction l as [|p l IH]; intros w H; simpl; [reflexivity|].
  destruct (H p (list_elem_of_here _ _)) as [Hrec Hf].
  unfold recorded_at, streams_at in Hrec, Hf.
  destruct (events w !! p) as [e|] eqn:He; [|discriminate].
  rewrite (bind_Done _ _ _ tt w).
  - apply IH. intros q Hq. apply H. now apply list_elem_of_further.
  - now rewrite (WaitForEventOnStream_eq _ _ _ _ He), Hrec, Hf.
Qed.

Lemma wait_for_each_spec s : forall l w,
  NoDup l ->
  (forall p, p ∈ l -> recorded_at w p = true) ->
  exists w',
    wait_for_each l s w = Done (tt, w') /\
    buffers_store w' = buffers_store w /\
    (forall p, p ∉ l -> events w' !! p = events w !! p) /\
    (forall p, p ∈ l ->
       recorded_at w' p = true /\ found s (streams_at p w') = true) /\
    waits_issued s (effects w') =
      (waits_issued s (effects w)
       + length (List.filter (needs_wait w s) l))%nat.
Proof.
  induction l as [|p l IH]; intros w Hnd Hrec; simpl.
  - exists w. unfold ret. split; [reflexivity|]. split; [reflexivity|].
    split; [reflexivity|]. split; [|lia].
    intros q Hq. now apply elem_of_nil in Hq.
  - apply NoDup_cons in Hnd as [Hp Hnd].
    pose proof (Hrec p (list_elem_of_here _ _)) as Hrp.
    unfold recorded_at in Hrp.
    destruct (events w !! p) as [e|] eqn:He; [|discriminate].
    pose proof (WaitForEventOnStream_eq w p e s He) as Hw.
    rewrite Hrp in Hw. unfold needs_wait at 1.
    rewrite (streams_at_eq _ _ _ He).
    destruct (found s (streams_defined_on_ e)) eqn:Hf.
    + destruct (IH w Hnd) as (w' & Hrun & Hb & Hout & Hin & Hcount).
      { intros q Hq. apply Hrec. now apply list_elem_of_further. }
      exists w'. split; [now rewrite (bind_Done _ _ _ _ _ Hw)|].
      split; [assumption|].
      split; [intros q Hq; apply Hout;
              now apply not_elem_of_cons in Hq as [_ Hq]|].
      split; [|exact Hcount].
      intros q Hq. apply elem_of_cons in Hq as [->|Hq]; [|now apply Hin].
      unfold recorded_at, streams_at. rewrite (Hout p Hp), He. auto.
    + set (e1 := {| event_ := event_ e;
                    streams_defined_on_ := streams_defined_on_ e ++ [s] |}).
      set (w1 := {| events := <[p := e1]> (events w);
                    buffers_store := buffers_store w;
                    effects := effects w
                               ++ [ThenWaitFor s (h_event (event_ e))] |})
        in *.
      assert (Hother : forall q, q <> p -> events w1 !! q = events w !! q)
        by (intros q Hq; simpl; now rewrite lookup_insert_ne).
      destruct (IH w1 Hnd) as (w' & Hrun & Hb & Hout & Hin & Hcount).
      { intros q Hq. unfold recorded_at. rewrite Hother.
        - apply Hrec. now apply list_elem_of_further.
        - intros ->. contradiction. }
      exists w'. split; [now rewrite (bind_Done _ _ _ _ _ Hw)|].
      split; [now rewrite Hb|].
      split.
      { intros q Hq. apply not_elem_of_cons in Hq as [Hqp Hq].
        rewrite (Hout q Hq). now apply Hother. }
      split.
      { intros q Hq. apply elem_of_cons in Hq as [->|Hq]; [|now apply Hin].
        unfold recorded_at, streams_at. rewrite (Hout p Hp). simpl.
        rewrite lookup_insert_eq. split; [exact Hrp|].
        unfold e1. simpl. rewrite found_push, Nat.eqb_refl.
        apply orb_true_r. }
      rewrite Hcount. simpl effects. rewrite waits_issued_app.
      rewrite waits_issued_one. simpl.
      assert (Hfilter : List.filter (needs_wait w1 s) l
                        = List.filter (needs_wait w s) l).
      { apply filter_ext_in. intros q Hq. unfold needs_wait, streams_at.
        rewrite Hother; [reflexivity|].
        intros ->. apply list_elem_of_In in Hq. contradiction. }
      rewrite Hfilter. lia.
Qed.

Lemma wait_for_each_parks s : forall l w,
  NoDup l ->
  (forall p, p ∈ l -> is_Some (events w !! p)) ->
  (exists p, p ∈ l /\ recorded_at w p = false) ->
  wait_for_each l s w = Blocked.
Proof.
  induction l as [|p l IH]; intros w Hnd Hex (q & Hq & Hrq); simpl.
  - now apply elem_of_nil in Hq.
  - apply NoDup_cons in Hnd as [Hp Hnd].
    destruct (Hex p (list_elem_of_here _ _)) as [e He].
    pose proof (WaitForEventOnStream_eq w p e s He) as Hw.
    destruct (EventHasBeenRecorded e) eqn:Hre;
      [|now apply bind_Blocked].
    assert (Hql : q ∈ l).
    { apply elem_of_cons in Hq as [->|Hq]; [|exact Hq].
      unfold recorded_at in Hrq. rewrite He in Hrq. congruence. }
    destruct (found s (streams_defined_on_ e)).
    + rewrite (bind_Done _ _ _ _ _ Hw). apply IH; [assumption| |eauto].
      intros r Hr. apply Hex. now apply list_elem_of_further.
    + rewrite (bind_Done _ _ _ _ _ Hw).
      assert (Hother : forall r, r ∈ l ->
        <[p := {| event_ := event_ e;
                  streams_defined_on_ := streams_defined_on_ e ++ [s] |}]>
          (events w) !! r = events w !! r).
      { intros r Hr. apply lookup_insert_ne. intros ->. contradiction. }
      apply IH; [assumption| |].
      * intros r Hr. simpl. rewrite (Hother r Hr). apply Hex.
        now apply list_elem_of_further.
      * exists q. split; [assumption|]. unfold recorded_at. simpl.
        now rewrite (Hother q Hql).
Qed.

Lemma filter_length_Permutation {A} (f : A -> bool) (l l' : list A) :
  l ≡ₚ l' -> length (List.filter f l) = length (List.filter f l').
Proof.
  induction 1 as [|x l l' _ IH|x y l|l l' l'' _ IH1 _ IH2]; simpl.
  - reflexivity.
  - destruct (f x); simpl; now rewrite IH.
  - destruct (f x), (f y); reflexivity.
  - congruence.
Qed.

Lemma WaitForBufferDefinitionEventsOnStream_eq iteration w buffer b s :
  buffers_store w !! buffer = Some b ->
  WaitForBufferDefinitionEventsOnStream iteration buffer s w
    = wait_for_each (iteration (list_to_set (definition_events_ b))) s w.
Proof.
  intros Hb.
  unfold WaitForBufferDefinitionEventsOnStream,
    GetDeviceBufferDefinitionEvents.
  unfold bind at 1. unfold bind at 1.
  rewrite (get_buffer_eq _ _ _ Hb). unfold ret.
  now rewrite collected_events_set.
Qed.

Lemma walk_elem_of iteration (l : list EventPtr) p :
  walks_each_once iteration ->
  p ∈ iteration (list_to_set l) <-> p ∈ l.
Proof.
  intros Hw. rewrite (Hw (list_to_set l)), elem_of_elements.
  apply elem_of_list_to_set.
Qed.

Lemma walk_NoDup iteration (X : gset nat) :
  walks_each_once iteration -> NoDup (iteration X).
Proof. intros Hw. rewrite (Hw X). apply NoDup_elements. Qed.

(** X15: [WaitForBufferDefinitionEventsOnStream], in whatever order the set
    of events is walked, parks while a definition event of the buffer has no
    record.  When all have one it returns: every definition event is then
    defined on the stream, one wait instruction was issued to the stream for
    each distinct definition event that was not yet defined on it, events
    that are not definition events of the buffer and all buffers are
    untouched, and a second call changes nothing at all. *)
Theorem WaitForBufferDefinitionEventsOnStream_synchronizes
    (iteration : gset nat -> list EventPtr) (w : World) (buffer : BufferPtr)
    (b : SharedDeviceBuffer) (s : Stream) :
  walks_each_once iteration ->
  buffers_store w !! buffer = Some b ->
  (forall p, p ∈ definition_events_ b -> is_Some (events w !! p)) ->
  ((exists p, p ∈ definition_events_ b /\ recorded_at w p = false) ->
   WaitForBufferDefinitionEventsOnStream iteration buffer s w = Blocked) /\
  ((forall p, p ∈ definition_events_ b -> recorded_at w p = true) ->
   exists w',
     WaitForBufferDefinitionEventsOnStream iteration buffer s w
       = Done (tt, w') /\
     buffers_store w' = buffers_store w /\
     (forall p, p ∈ definition_events_ b ->
        DefinedOn p s w' = Done (true, w')) /\
     (forall p, p ∉ definition_events_ b ->
        events w' !! p = events w !! p) /\
     waits_issued s (effects w') =
       (waits_issued s (effects w)
        + length (List.filter (needs_wait w s)
                    (distinct_definition_events b)))%nat /\
     WaitForBufferDefinitionEventsOnStream iteration buffer s w'
       = Done (tt, w')).
Proof.
  intros Hwalk Hb Hex.
  rewrite (WaitForBufferDefinitionEventsOnStream_eq _ _ _ _ _ Hb).
  split.
  - intros (p & Hp & Hrp). apply wait_for_each_parks.
    + now apply walk_NoDup.
    + intros q Hq. apply Hex.
      exact (proj1 (walk_elem_of iteration _ q Hwalk) Hq).
    + exists p. split; [|exact Hrp].
      exact (proj2 (walk_elem_of iteration _ p Hwalk) Hp).
  - intros Hrec.
    destruct (wait_for_each_spec s
                (iteration (list_to_set (definition_events_ b))) w)
      as (w' & Hrun & Hbuf & Hout & Hin & Hcount).
    { now apply walk_NoDup. }
    { intros q Hq. apply Hrec.
      exact (proj1 (walk_elem_of iteration _ q Hwalk) Hq). }
    exists w'. split; [exact Hrun|]. split; [exact Hbuf|].
    split.
    { intros p Hp.
      apply (proj2 (walk_elem_of iteration _ p Hwalk)) in Hp.
      destruct (Hin p Hp) as [Hr Hf]. unfold recorded_at, streams_at in *.
      destruct (events w' !! p) as [e|] eqn:He; [|discriminate].
      now rewrite (DefinedOn_eq _ _ _ _ He), Hr, Hf. }
    split.
    { intros p Hp. apply Hout. intros Hp'. apply Hp.
      exact (proj1 (walk_elem_of iteration _ p Hwalk) Hp'). }
    split.
    { rewrite Hcount. f_equal. apply filter_length_Permutation.
      apply Hwalk. }
    assert (Hb' : buffers_store w' !! buffer = Some b) by now rewrite Hbuf.
    rewrite (WaitForBufferDefinitionEventsOnStream_eq _ _ _ _ _ Hb').
    apply wait_for_each_noop. exact Hin.
Qed.

Lemma WaitForBufferDefinitionEventsOnStream_synchronizes_witness :
  WaitForBufferDefinitionEventsOnStream elements 0%nat 9%nat
    (world_with_buffer (buffer_defined_by [1%nat; 3%nat])) = Blocked /\
  exists w',
    WaitForBufferDefinitionEventsOnStream elements 0%nat 9%nat
      (world_with_buffer (buffer_defined_by [1%nat; 2%nat; 1%nat]))
      = Done (tt, w') /\
    DefinedOn 1%nat 9%nat w' = Done (true, w') /\
    DefinedOn 2%nat 9%nat w' = Done (true, w') /\
    waits_issued 9%nat (effects w') = 2%nat /\
    WaitForBufferDefinitionEventsOnStream elements 0%nat 9%nat w'
      = Done (tt, w').
Proof.
  assert (Hwalk : walks_each_once elements) by (intros X; reflexivity).
  split.
  - apply (proj1 (WaitForBufferDefinitionEventsOnStream_synchronizes
                    elements
                    (world_with_buffer (buffer_defined_by [1%nat; 3%nat]))
                    0%nat (buffer_defined_by [1%nat; 3%nat]) 9%nat
                    Hwalk eq_refl
                    ltac:(intros p Hp; simpl in Hp;
                          repeat (apply elem_of_cons in Hp as [->|Hp];
                                  [vm_compute; eauto|]);
                          now apply elem_of_nil in Hp))).
    exists 3%nat. split; [|reflexivity].
    apply list_elem_of_further, list_elem_of_here.
  - destruct (proj2 (WaitForBufferDefinitionEventsOnStream_synchronizes
                       elements
                       (world_with_buffer
                          (buffer_defined_by [1%nat; 2%nat; 1%nat]))
                       0%nat (buffer_defined_by [1%nat; 2%nat; 1%nat]) 9%nat
                       Hwalk eq_refl
                       ltac:(intros p Hp; simpl in Hp;
                             repeat (apply elem_of_cons in Hp as [->|Hp];
                                     [vm_compute; eauto|]);
                             now apply elem_of_nil in Hp)))
      as (w' & Hrun & _ & Hdef & _ & Hcount & Hagain).
    { intros p Hp. simpl in Hp.
      repeat (apply elem_of_cons in Hp as [->|Hp]; [reflexivity|]).
      now apply elem_of_nil in Hp. }
    exists w'. split; [exact Hrun|].
    split; [apply Hdef, list_elem_of_here|].
    split; [apply Hdef, list_elem_of_further, list_elem_of_here|].
    split; [exact Hcount | exact Hagain].
Defined.

(** X16: [GetDeviceBufferDefinitionEvents] adds to the caller's set and
    removes nothing from it: an event is in the result exactly when it was in
    the set or is a definition event of the buffer.  So collecting over two
    buffers gives the same set in either order, and the program state is
    not changed by collecting. *)
Theorem GetDeviceBufferDefinitionEvents_accumulates (w : World)
    (p1 p2 : BufferPtr) (b1 b2 : SharedDeviceBuffer) (X : gset nat) :
  buffers_store w !! p1 = Some b1 ->
  buffers_store w !! p2 = Some b2 ->
  exists Y,
    (X1 <- GetDeviceBufferDefinitionEvents p1 X ;;
     GetDeviceBufferDefinitionEvents p2 X1) w = Done (Y, w) /\
    (X2 <- GetDeviceBufferDefinitionEvents p2 X ;;
     GetDeviceBufferDefinitionEvents p1 X2) w = Done (Y, w) /\
    (forall e,
       e ∈ Y <->
       e ∈ X \/ e ∈ definition_events_ b1 \/ e ∈ definition_events_ b2) /\
    X ⊆ Y.
Proof.
  intros H1 H2.
  set (collect := fun (b : SharedDeviceBuffer) (Z : gset nat) =>
         foldl (fun acc e => {[ e ]} ∪ acc) Z (definition_events_ b)).
  assert (Hget : forall p b Z, buffers_store w !! p = Some b ->
            GetDeviceBufferDefinitionEvents p Z w = Done (collect b Z, w)).
  { intros p b Z Hb. unfold GetDeviceBufferDefinitionEvents.
    now rewrite (bind_Done _ _ _ _ _ (get_buffer_eq _ _ _ Hb)). }
  assert (Hmem : forall e,
            e ∈ collect b2 (collect b1 X) <->
            e ∈ X \/ e ∈ definition_events_ b1 \/ e ∈ definition_events_ b2).
  { intros e. unfold collect. rewrite !collected_events. tauto. }
  exists (collect b2 (collect b1 X)).
  split; [rewrite (bind_Done _ _ _ _ _ (Hget p1 b1 X H1)); now apply Hget|].
  split.
  - rewrite (bind_Done _ _ _ _ _ (Hget p2 b2 X H2)).
    rewrite (Hget p1 b1 _ H1). f_equal. f_equal.
    apply set_eq. intros e. rewrite Hmem. unfold collect.
    rewrite !collected_events. tauto.
  - split; [exact Hmem|]. intros e He. apply Hmem. now left.
Qed.

Lemma GetDeviceBufferDefinitionEvents_accumulates_witness :
  exists Y,
    (X1 <- GetDeviceBufferDefinitionEvents 0%nat {[ 5%nat ]} ;;
     GetDeviceBufferDefinitionEvents 0%nat X1)
      (world_with_buffer (buffer_defined_by [1%nat; 2%nat; 1%nat]))
      = Done (Y, world_with_buffer (buffer_defined_by [1%nat; 2%nat; 1%nat]))
    /\ (5%nat ∈ Y /\ 1%nat ∈ Y /\ 2%nat ∈ Y).
Proof.
  destruct (GetDeviceBufferDefinitionEvents_accumulates
              (world_with_buffer (buffer_defined_by [1%nat; 2%nat; 1%nat]))
              0%nat 0%nat
              (buffer_defined_by [1%nat; 2%nat; 1%nat])
              (buffer_defined_by [1%nat; 2%nat; 1%nat])
              {[ 5%nat ]} eq_refl eq_refl)
    as (Y & Hrun & _ & Hmem & _).
  exists Y. split; [exact Hrun|].
  split; [|split]; apply Hmem.
  - left. now apply elem_of_singleton.
  - right. left. apply list_elem_of_here.
  - right. left. apply list_elem_of_further, list_elem_of_here.
Defined.

(** ** What the lock closes *)

Lemma AsShapedBuffer_same_storage w w' self b b' host device pl :
  buffers_store w !! self = Some b ->
  buffers_store w' !! self = Some b' ->
  same_storage b b' ->
  AsShapedBuffer self host device pl w' =
    match AsShapedBuffer self host device pl w with
    | Done (out, _) => Done (out, w')
    | Blocked => Blocked
    | Crash => Crash
    end.
Proof.
  intros Hb Hb' (_ & Ho & Hm & _).
  destruct (decide (length (device_memory_ b)
                    = length (ForEachSubshape device []))) as [Hlen|Hne].
  - rewrite (AsShapedBuffer_eq w self b host device pl Hb Hlen).
    rewrite (AsShapedBuffer_eq w' self b' host device pl Hb')
      by now rewrite Hm.
    now rewrite Ho, Hm.
  - rewrite (AsShapedBuffer_mismatch w self b host device pl Hb Hne).
    apply (AsShapedBuffer_mismatch w' self b'); [assumption|].
    now rewrite Hm.
Qed.

(** X7: the lock closes the hold protocol.  Once
    [LockUseAndTransferUsageEvents] has returned, the calls that check
    [in_use_], which are [AddUsageHold], [DropUsageHold],
    [ConvertUsageHold], [AddExternalReference] and a second
    [LockUseAndTransferUsageEvents], abort, and so does a guard's [Acquire]
    of the buffer, at once or after any calls that return; of these calls
    and [DropExternalReference], only [DropExternalReference] occurs in a
    sequence that returns, and such a sequence leaves [usage_events_] as
    the lock left it.  What does not check [in_use_] is not closed:
    [AsShapedBuffer] and [GetDeviceBufferDefinitionEvents] give after the
    lock what they gave before it. *)
Theorem hold_protocol_closed_after_lock (w : World) (self : BufferPtr)
    (evs : list StreamAndEvent) (w1 : World) (cs : list Call) (w2 : World) :
  LockUseAndTransferUsageEvents self w = Done (evs, w1) ->
  calls self cs w1 = Done (tt, w2) ->
  forallb allowed_after_lock cs = true /\
  usage_events_at self w2 = usage_events_at self w1 /\
  AddUsageHold self w2 = Crash /\
  DropUsageHold self w2 = Crash /\
  (forall s ev held, ConvertUsageHold self s ev held w2 = Crash) /\
  AddExternalReference self w2 = Crash /\
  LockUseAndTransferUsageEvents self w2 = Crash /\
  (forall g, ScopedUsage.Acquire g (Some self) w2 = Crash) /\
  (forall host device pl,
     AsShapedBuffer self host device pl w2 =
       match AsShapedBuffer self host device pl w with
       | Done (out, _) => Done (out, w2)
       | Blocked => Blocked
       | Crash => Crash
       end) /\
  (forall X,
     GetDeviceBufferDefinitionEvents self X w2 =
       match GetDeviceBufferDefinitionEvents self X w with
       | Done (Y, _) => Done (Y, w2)
       | Blocked => Blocked
       | Crash => Crash
       end).
Proof.
  intros Hlock Hrun.
  apply LockUseAndTransferUsageEvents_inv in Hlock
    as (b & Hb & Hu & Hh & -> & ->).
  set (b1 := set_usage_events [] (set_in_use false b)) in *.
  assert (Hb1 : buffers_store (update_buffer self b1 w) !! self = Some b1)
    by apply lookup_insert_eq.
  assert (Hallowed := calls_not_in_use _ _ _ _ _ Hb1 eq_refl Hrun).
  destruct (calls_not_in_use_events _ _ _ _ _ Hb1 eq_refl Hrun)
    as (b2 & Hb2 & Hl & He).
  destruct (calls_counters _ _ _ _ _ Hb1 Hrun)
    as (b2' & Hb2' & _ & _ & Hst & _).
  rewrite Hb2 in Hb2'. injection Hb2' as <-.
  assert (Hst0 : same_storage b b2).
  { apply (same_storage_trans b b1 b2); [|exact Hst]. repeat split. }
  split; [assumption|].
  split; [unfold usage_events_at; now rewrite Hb2, Hb1, He|].
  split; [now rewrite (AddUsageHold_eq _ _ _ Hb2), Hl|].
  split; [now rewrite (DropUsageHold_eq _ _ _ Hb2), Hl|].
  split; [intros; now rewrite (ConvertUsageHold_eq _ _ _ _ _ _ Hb2), Hl|].
  split; [now rewrite (AddExternalReference_eq _ _ _ Hb2), Hl|].
  split; [now rewrite (LockUseAndTransferUsageEvents_eq _ _ _ Hb2), Hl|].
  split.
  { intros g. unfold ScopedUsage.Acquire, bind, CHECK.
    destruct (ScopedUsage.is_null _); [|reflexivity].
    now rewrite (AddUsageHold_eq _ _ _ Hb2), Hl. }
  split.
  { intros host device pl.
    now apply (AsShapedBuffer_same_storage w w2 self b b2). }
  intros X. unfold GetDeviceBufferDefinitionEvents.
  rewrite (bind_Done _ _ _ _ _ (get_buffer_eq _ _ _ Hb)).
  rewrite (bind_Done _ _ _ _ _ (get_buffer_eq _ _ _ Hb2)).
  unfold ret. destruct Hst0 as (_ & _ & _ & -> & _). reflexivity.
Qed.

Lemma hold_protocol_closed_after_lock_witness :
  exists evs w1 w2 out,
    LockUseAndTransferUsageEvents 0%nat
      (world_with_buffer
         (set_external_references 1
            (sample_buffer 0
               [{| stream := 7%nat; event := 1%nat;
                   reference_held := true |}])))
      = Done (evs, w1) /\
    calls 0%nat [CallDropExternalReference] w1 = Done (tt, w2) /\
    LockUseAndTransferUsageEvents 0%nat w2 = Crash /\
    AddUsageHold 0%nat w2 = Crash /\
    AsShapedBuffer 0%nat boxed_shape boxed_shape 2%nat w2 = Done (out, w2) /\
    regions (buffers out) = [region 4096 64; region 8192 32].
Proof.
  assert (Hlock :
    LockUseAndTransferUsageEvents 0%nat
      (world_with_buffer
         (set_external_references 1
            (sample_buffer 0
               [{| stream := 7%nat; event := 1%nat;
                   reference_held := true |}])))
      = Done (_, _))
    by (vm_compute; reflexivity).
  lazymatch type of Hlock with
  | _ = Done (_, ?w1) =>
      assert (Hrun : calls 0%nat [CallDropExternalReference] w1 = Done (tt, _))
        by (vm_compute; reflexivity)
  end.
  destruct (hold_protocol_closed_after_lock _ _ _ _ _ _ Hlock Hrun)
    as (_ & _ & Hadd & _ & _ & _ & Hagain & _ & Has & _).
  eexists. eexists. eexists. eexists.
  split; [exact Hlock|]. split; [exact Hrun|].
  split; [exact Hagain|]. split; [exact Hadd|].
  split; [rewrite Has; vm_compute; reflexivity | reflexivity].
Defined.
